(** * CoNLL-2003 preprocessing notebooks: a shallow embedding

    The repository holds two notebooks (both in [src/CoNLL.ipynb]) that read
    the CoNLL-2003 corpus with pandas, encode words and entity tags with
    scikit-learn's [LabelEncoder], group the tokens by sentence, pad the
    sentences with keras' [pad_sequences] and fill an embedding matrix from
    the GloVe table.

    Every cell of the notebooks is a call into one of those libraries, so
    each definition below embeds one call, with the arguments the notebook
    passes, and is named after the call or after the notebook variable it
    computes.  The first notebook (the one that trains the model) is
    [Notebook1]; the second one, an earlier draft that stops after padding,
    is [Notebook2]. *)

From Stdlib Require Import String Ascii ZArith Lia.
From stdpp Require Import base option list sorting gmap strings.

Open Scope string_scope.
Open Scope list_scope.

(** ** Python exceptions *)

Module Py.

(** The exceptions the library calls of the notebooks can raise. *)
Inductive exn : Type :=
| KeyError        (* [DataFrame.loc] on a label that is not in the index *)
| ValueError      (* unseen labels in [LabelEncoder.transform], numpy shape
                     mismatches on assignment, [LabelBinarizer.fit] on an
                     empty column *)
| ParserError     (* [read_csv] on a file it cannot cut into the columns *)
| AttributeError. (* the [.str] accessor on a column that holds no strings *)

Inductive result (A : Type) : Type :=
| Ok (a : A)
| Raise (e : exn).
Arguments Ok {A} a.
Arguments Raise {A} e.

Definition bind {A B} (k : A -> result B) (m : result A) : result B :=
  match m with
  | Ok a => k a
  | Raise e => Raise e
  end.

(** [for x in xs: f(x)] collecting the results; the first exception
    aborts the loop. *)
Fixpoint for_each {A B} (f : A -> result B) (xs : list A) : result (list B) :=
  match xs with
  | [] => Ok []
  | x :: xs' =>
      bind (fun y => bind (fun ys => Ok (y :: ys)) (for_each f xs')) (f x)
  end.

(** [try: body / except: pass] around a statement that updates [s]. *)
Definition try_except_pass {S} (s : S) (body : result S) : S :=
  match body with
  | Ok s' => s'
  | Raise _ => s
  end.

(** [enumerate(xs)], counting from [i]. *)
Fixpoint enumerate_from {A} (i : nat) (xs : list A) : list (nat * A) :=
  match xs with
  | [] => []
  | x :: xs' => (i, x) :: enumerate_from (S i) xs'
  end.
Definition enumerate {A} (xs : list A) : list (nat * A) := enumerate_from 0 xs.

(** The slice [s[-n:]].  For [n = 0] this is [s[0:]], the whole list. *)
Definition slice_last {A} (n : nat) (s : list A) : list A :=
  match n with
  | 0 => s
  | _ => drop (length s - n) s
  end.

End Py.
Import Py.

#[global] Instance result_bind : MBind result := @Py.bind.
#[global] Instance result_ret : MRet result := @Py.Ok.

(** ** numpy *)

Module Numpy.

Section Unique.
Context {A : Type} (R : relation A) `{!RelDecision R} `{!EqDecision A}.

(** Put [x] in its place in a sorted list without duplicates. *)
Fixpoint insert_unique (x : A) (l : list A) : list A :=
  match l with
  | [] => [x]
  | y :: l' =>
      if decide (x = y) then y :: l'
      else if decide (R x y) then x :: y :: l'
      else y :: insert_unique x l'
  end.

(** [np.unique(ar)]: the sorted distinct elements of [ar]. *)
Definition unique (ar : list A) : list A := foldr insert_unique [] ar.

(** [np.searchsorted(a, v)] (side ['left']): the number of leading
    elements of the sorted array [a] that are strictly below [v]. *)
Fixpoint searchsorted (a : list A) (v : A) : nat :=
  match a with
  | [] => 0
  | c :: a' =>
      if decide (c <> v /\ R c v) then S (searchsorted a' v) else 0
  end.
End Unique.

(** [np.zeros((rows, cols))] over scalars with zero [zero]. *)
Definition zeros {F} (zero : F) (rows cols : nat) : list (list F) :=
  replicate rows (replicate cols zero).

(** [m[i] = v] for a two-dimensional [m] with rows of width [cols] and a
    one-dimensional [v]: [v] must have the row's width, or be a single
    element, which is broadcast. *)
Definition setitem_row {F} (cols : nat) (m : list (list F)) (i : nat)
    (v : list F) : result (list (list F)) :=
  if decide (length v = cols) then Ok (<[i := v]> m)
  else match v with
       | [c] => Ok (<[i := replicate cols c]> m)
       | _ => Raise ValueError
       end.

End Numpy.

(** ** pandas *)

Module Pandas.

(** A cell of an object column: a string, or NaN ([None]). *)
Abbreviation cell := (option string).

(** The strings [read_csv] reads as NaN by default ([na_filter=True], no
    [na_values] passed), for the pandas the notebooks ran on (Python 2.7). *)
Definition na_values : list string :=
  [""; "#N/A"; "#N/A N/A"; "#NA"; "-1.#IND"; "-1.#QNAN"; "-NaN"; "-nan";
   "1.#IND"; "1.#QNAN"; "N/A"; "NA"; "NULL"; "NaN"; "n/a"; "nan"; "null"].

Definition parse_field (s : string) : cell :=
  if decide (s ∈ na_values) then None else Some s.

(** *** The tokenizer

    [read_csv] is called with [sep=" "] and keeps the default [quotechar]
    (the double quote) with [doublequote=True]: a field that starts with a
    quote runs to the closing quote, spaces and line ends included, and a
    doubled quote inside it stands for one quote.  The states are those of
    the C tokenizer of pandas. *)
Inductive state : Type :=
| START_RECORD
| START_FIELD
| IN_FIELD
| IN_QUOTED_FIELD
| QUOTE_IN_QUOTED_FIELD.

Definition newline : ascii := "010"%char.
Definition carriage : ascii := "013"%char.
Definition quotechar : ascii := "034"%char.
Definition sep : ascii := " "%char.

(** [END_FIELD]: the characters pushed so far, kept in reverse in
    [field], close a field of the current row; [row] holds the fields of
    the row in reverse. *)
Definition end_field (field : string) (row : list string) : list string :=
  String.rev field :: row.

(** [END_LINE]: the current row is complete; [rows] holds the rows in
    reverse. *)
Definition end_line (row : list string) (rows : list (list string))
    : list (list string) :=
  reverse row :: rows.

(** [tokenize_bytes], one character at a time, and [parser_handle_eof] at
    the end of the text.  With [skip_blank_lines=False] a line end met in
    [START_RECORD] ends a row without any field.  The end of the text
    inside a quoted field is an error ("EOF inside string"). *)
Fixpoint tokenize_bytes (st : state) (field : string) (row : list string)
    (rows : list (list string)) (text : string)
    : result (list (list string)) :=
  match text with
  | "" =>
      match st with
      | START_RECORD => Ok (reverse rows)
      | IN_QUOTED_FIELD => Raise ParserError
      | START_FIELD | IN_FIELD | QUOTE_IN_QUOTED_FIELD =>
          Ok (reverse (end_line (end_field field row) rows))
      end
  | String c text' =>
      match st with
      | START_RECORD =>
          if Ascii.eqb c newline
          then tokenize_bytes START_RECORD "" [] (end_line row rows) text'
          else if Ascii.eqb c quotechar
          then tokenize_bytes IN_QUOTED_FIELD "" row rows text'
          else if Ascii.eqb c sep
          then tokenize_bytes START_FIELD "" (end_field "" row) rows text'
          else tokenize_bytes IN_FIELD (String c "") row rows text'
      | START_FIELD =>
          if Ascii.eqb c newline
          then tokenize_bytes START_RECORD "" []
                 (end_line (end_field "" row) rows) text'
          else if Ascii.eqb c quotechar
          then tokenize_bytes IN_QUOTED_FIELD "" row rows text'
          else if Ascii.eqb c sep
          then tokenize_bytes START_FIELD "" (end_field "" row) rows text'
          else tokenize_bytes IN_FIELD (String c "") row rows text'
      | IN_FIELD =>
          if Ascii.eqb c newline
          then tokenize_bytes START_RECORD "" []
                 (end_line (end_field field row) rows) text'
          else if Ascii.eqb c sep
          then tokenize_bytes START_FIELD "" (end_field field row) rows text'
          else tokenize_bytes IN_FIELD (String c field) row rows text'
      | IN_QUOTED_FIELD =>
          if Ascii.eqb c quotechar
          then tokenize_bytes QUOTE_IN_QUOTED_FIELD field row rows text'
          else tokenize_bytes IN_QUOTED_FIELD (String c field) row rows text'
      | QUOTE_IN_QUOTED_FIELD =>
          if Ascii.eqb c quotechar
          then tokenize_bytes IN_QUOTED_FIELD (String c field) row rows text'
          else if Ascii.eqb c sep
          then tokenize_bytes START_FIELD "" (end_field field row) rows text'
          else if Ascii.eqb c newline
          then tokenize_bytes START_RECORD "" []
                 (end_line (end_field field row) rows) text'
          else tokenize_bytes IN_FIELD (String c field) row rows text'
      end
  end.

(** The rows of a file, each with the fields the tokenizer cut. *)
Definition tokenize (text : string) : result (list (list string)) :=
  tokenize_bytes START_RECORD "" [] [] text.

(** A row of the file as the tokenizer delivers it, of at most four
    fields.  [names] has four entries; what the parser does with a row of
    more than four fields depends on where the row stands in the file,
    and such rows are not part of this model. *)
Inductive line : Type :=
| Line0
| Line1 (a : string)
| Line2 (a b : string)
| Line3 (a b c : string)
| Line4 (a b c d : string).

#[global] Instance line_eq_dec : EqDecision line.
Proof. solve_decision. Defined.

Definition fields (l : line) : list string :=
  match l with
  | Line0 => []
  | Line1 a => [a]
  | Line2 a b => [a; b]
  | Line3 a b c => [a; b; c]
  | Line4 a b c d => [a; b; c; d]
  end.

(** A row of the frame [read_csv] returns: the row label (the number of
    the row, since no index column is given) and the four named columns. *)
Record raw_row : Type := RawRow {
  raw_index : nat;
  raw_word : cell;
  raw_POS : cell;
  raw_chunk : cell;
  raw_origin_entity : cell
}.

Definition to_line (row : list string) : option line :=
  match row with
  | [] => Some Line0
  | [a] => Some (Line1 a)
  | [a; b] => Some (Line2 a b)
  | [a; b; c] => Some (Line3 a b c)
  | [a; b; c; d] => Some (Line4 a b c d)
  | _ => None
  end.

Fixpoint has_carriage (text : string) : bool :=
  match text with
  | "" => false
  | String c text' => Ascii.eqb c carriage || has_carriage text'
  end.

(** The byte order mark of UTF-8, which pandas skips at the start of a
    file. *)
Definition byte_order_mark : string :=
  String "239" (String "187" (String "191" "")).

(** Texts [tokenize] does not account for: it has no state for carriage
    returns and does not skip a byte order mark. *)
Definition unsupported (text : string) : bool :=
  has_carriage text || String.prefix byte_order_mark text.

(** With [low_memory=True] the rows are converted [buffer_lines] at a
    time: the largest power of two below [2**20 // 4] for the four
    columns. *)
Definition buffer_lines : N := 131072.

(** The rows [read_csv] accepts for the four columns.  [None] marks the
    files this model says nothing about: the [unsupported] texts, files
    of more than [buffer_lines] rows (the types of their columns are
    inferred piece by piece), files with a row of more than four fields,
    and files without any row of four fields, save the file that is one
    single row of one to three fields, which the parser refuses ("Too many
    columns specified").  The end of the file inside a quoted field is
    refused too.  In an accepted file the rows of fewer than four fields
    are closed with empty fields. *)
Definition parse (text : string) : option (result (list line)) :=
  if unsupported text then None
  else match tokenize text with
       | Raise e => Some (Raise e)
       | Ok rows =>
           if N.ltb buffer_lines (N.of_nat (List.length rows)) then None else
           ls ← mapM to_line rows;
           if existsb (fun l => Nat.eqb (List.length (fields l)) 4) ls
           then Some (Ok ls)
           else match ls with
                | [l] => if Nat.leb 1 (List.length (fields l))
                         then Some (Raise ParserError) else None
                | _ => None
                end
       end.

(** The [k]-th column of a row: the field when there is one, and
    otherwise the empty field the tokenizer closes the short row with. *)
Definition column (k : nat) (l : line) : cell :=
  parse_field (default "" (fields l !! k)).

Definition read_line (i : nat) (l : line) : raw_row :=
  RawRow i (column 0 l) (column 1 l) (column 2 l) (column 3 l).

(** The frame [read_csv] builds from the rows of an accepted file: one
    row per row of the file, blank lines included (they become rows of
    NaN), labelled by the row number. *)
Definition frame (ls : list line) : list raw_row := imap read_line ls.

(** [pd.read_csv(path, names=["word", "POS", "chunk", "origin_entity"],
    header=None, sep=" ", skip_blank_lines=False)] on the text of the
    file.  The cells of the frame hold the fields as the file has them;
    which columns pandas converts to numbers is told by [column_dtype]
    below. *)
Definition read_csv (text : string) : option (result (list raw_row)) :=
  r ← parse text; Some (ls ← r; Ok (frame ls)).

(** *** Column types

    [read_csv] converts a column whose values all read as numbers (or all
    as truth values), and keeps a column as strings as soon as one value
    does not.  Whether a string reads as a number is decided here for two
    plain cases only: a string with a character that occurs in no number,
    infinity or truth value, however written, and a string of at most
    eighteen digits.  An accepted file is read in one piece. *)
Definition whitespace : list ascii :=
  ["009"; "010"; "011"; "012"; "013"; " "]%char.

Definition number_character (c : ascii) : bool :=
  existsb (Ascii.eqb c)
    (whitespace ++
     list_ascii_of_string "0123456789+-.,aefilnrstuyxjd_AEFILNRSTUYXJD").

Fixpoint plain_text (s : string) : bool :=
  match s with
  | "" => false
  | String c s' => negb (number_character c) || plain_text s'
  end.

Definition plain_number (s : string) : bool :=
  Nat.leb 1 (String.length s) && Nat.leb (String.length s) 18
  && forallb (fun c => existsb (Ascii.eqb c) (list_ascii_of_string "0123456789"))
       (list_ascii_of_string s).

Inductive dtype : Type :=
| object_    (* strings, and NaN for the missing values *)
| float64.   (* numbers: the column holds no string *)

(** The type of a column, when the two plain cases decide it: strings when
    some value is plainly text, numbers when every value is NaN or plainly
    a number. *)
Definition column_dtype (col : list cell) : option dtype :=
  if existsb (fun c => from_option plain_text false c) col
  then Some object_
  else if forallb (fun c => from_option plain_number true c) col
  then Some float64
  else None.

(** [col.str]: the accessor raises [AttributeError] on a column that is
    not of strings. *)
Definition str_accessor (col : list cell) : option (result unit) :=
  t ← column_dtype col;
  Some match t with
       | object_ => Ok tt
       | float64 => Raise AttributeError
       end.

(** [s.rsplit(sep, 1)]: cut [s] at its last separator, if it has one. *)
Fixpoint rsplit1 (sep : ascii) (s : string) : list string :=
  match s with
  | "" => [""]
  | String c s' =>
      match rsplit1 sep s' with
      | [head; tail] => [String c head; tail]
      | _ => if Ascii.eqb c sep then [""; s'] else [s]
      end
  end.

(** [col.str.rsplit("-", 1).str[-1]] on one cell; NaN stays NaN. *)
Definition str_rsplit_last (c : cell) : cell :=
  s ← c; last (rsplit1 "-"%char s).

(** The frame after [train["entity"] = ...]. *)
Record row : Type := Row {
  index : nat;
  word : cell;
  POS : cell;
  chunk : cell;
  origin_entity : cell;
  entity : cell
}.

Definition assign_entity (r : raw_row) : row :=
  Row (raw_index r) (raw_word r) (raw_POS r) (raw_chunk r)
      (raw_origin_entity r) (str_rsplit_last (raw_origin_entity r)).

(** One row of [df.isnull().all(axis=1)]. *)
Definition isnull_all (r : row) : bool :=
  bool_decide (word r = None /\ POS r = None /\ chunk r = None /\
               origin_entity r = None /\ entity r = None).

(** [mask.cumsum()] on a boolean column: the running count of [true],
    the current row included. *)
Fixpoint cumsum_from (acc : nat) (mask : list bool) : list nat :=
  match mask with
  | [] => []
  | b :: mask' =>
      let acc' := if b then S acc else acc in
      acc' :: cumsum_from acc' mask'
  end.
Definition cumsum (mask : list bool) : list nat := cumsum_from 0 mask.

(** A row without any NaN, as [dropna] leaves them. *)
Record token : Type := Token {
  t_index : nat;
  t_word : string;
  t_POS : string;
  t_chunk : string;
  t_origin_entity : string;
  t_entity : string;
  t_sentence : nat
}.

Definition dropna_row (rs : row * nat) : option token :=
  w ← word rs.1; p ← POS rs.1; c ← chunk rs.1;
  o ← origin_entity rs.1; e ← entity rs.1;
  Some (Token (index rs.1) w p c o e rs.2).

(** [df.dropna()]: drop every row that has a NaN in some column.  The
    frame is given as its rows paired with the [sentence] column, which
    holds integers and has no NaN. *)
Definition dropna (df : list (row * nat)) : list token := omap dropna_row df.

(** [df.groupby(key)[val].apply(list)]: one entry per distinct key, in
    increasing key order, holding the values of the rows with that key in
    row order.  A key no row carries has no entry. *)
Definition groupby {A B} (key : A -> nat) (val : A -> B) (df : list A)
    : list (nat * list B) :=
  (fun k => (k, val <$> filter (fun r => key r = k) df))
    <$> Numpy.unique le (key <$> df).

(** What [df.loc[label]] returns on a frame whose index is a column of
    the file: a [Series] when one row bears the label, a [DataFrame] when
    several do. *)
Inductive loc_result (F : Type) : Type :=
| Series (v : list F)
| DataFrame (rows : list (list F)).
Arguments Series {F} v.
Arguments DataFrame {F} rows.

(** [df.loc[label]] for a frame read with [index_col=0]: [df] lists the
    index cell and the remaining columns of every row. *)
Definition loc {F} (df : list (cell * list F)) (label : string)
    : result (loc_result F) :=
  match filter (fun r => r.1 = Some label) df with
  | [] => Raise KeyError
  | [r] => Ok (Series r.2)
  | rs => Ok (DataFrame (snd <$> rs))
  end.

End Pandas.

(** ** scikit-learn *)

Module Sklearn.

(** A fitted [LabelEncoder]: its [classes_] attribute. *)
Record LabelEncoder : Type := { classes_ : list string }.

(** [LabelEncoder().fit(y)]: [classes_ = np.unique(y)].  Strings are
    Python 2 byte strings, compared byte by byte. *)
Definition fit (y : list string) : LabelEncoder :=
  {| classes_ := Numpy.unique String.le y |}.

(** [enc.transform(y)]: raises [ValueError] ("y contains new labels")
    when some label of [y] is not in [classes_], and otherwise returns
    [np.searchsorted(classes_, y)]. *)
Definition transform (enc : LabelEncoder) (y : list string)
    : result (list nat) :=
  if decide (Forall (fun l => l ∈ classes_ enc) y)
  then Ok (Numpy.searchsorted String.le (classes_ enc) <$> y)
  else Raise ValueError.

(** [enc.fit_transform(y)]: [np.unique(y, return_inverse=True)]; the
    inverse holds, for each label, its position in [classes_]. *)
Definition fit_transform (y : list string) : LabelEncoder * list nat :=
  let enc := fit y in
  (enc, Numpy.searchsorted String.le (classes_ enc) <$> y).

(** [enc.inverse_transform(ids)]: [classes_[ids]]; an id past the end
    raises [ValueError]. *)
Definition inverse_transform (enc : LabelEncoder) (ids : list nat)
    : result (list string) :=
  for_each (fun i => match classes_ enc !! i with
                     | Some w => Ok w
                     | None => Raise ValueError
                     end) ids.

(** A fitted [LabelBinarizer] on integer labels. *)
Record LabelBinarizer : Type := { lb_classes_ : list nat }.

(** [LabelBinarizer().fit(y)]: [classes_ = unique_labels(y)]; an empty
    [y] is refused ("y has 0 samples"). *)
Definition lb_fit (y : list nat) : result LabelBinarizer :=
  match y with
  | [] => Raise ValueError
  | _ => Ok {| lb_classes_ := Numpy.unique le y |}
  end.

(** [lb.transform(y)] with [neg_label=0, pos_label=1]: one indicator row
    per label.  With a single class the row is [[0]], with two classes it
    is the indicator of the second class alone, and with three or more it
    has one column per class. *)
Definition lb_transform (lb : LabelBinarizer) (y : list nat)
    : list (list Z) :=
  match lb_classes_ lb with
  | [] | [_] => (fun _ => [0%Z]) <$> y
  | [_; c1] => (fun v => [if decide (v = c1) then 1%Z else 0%Z]) <$> y
  | cs => (fun v => (fun c => if decide (v = c) then 1%Z else 0%Z) <$> cs) <$> y
  end.

End Sklearn.

(** ** keras *)

Module Keras.

(** One row of [pad_sequences], with [padding='pre'] and
    [truncating='pre'] (the defaults, which the notebooks keep): an empty
    sequence leaves the row filled with [fill]; otherwise
    [trunc = s[-maxlen:]] is written at the end of the row,
    [x[idx, -len(trunc):] = trunc].  When [trunc] is longer than the row
    (which takes [maxlen=0], where [s[-0:]] is the whole of [s]) numpy
    refuses the assignment, unless [trunc] has a single entry, which it
    broadcasts over the empty slice. *)
Definition pad_row {A} (maxlen : nat) (fill : A) (s : list A)
    : result (list A) :=
  match s with
  | [] => Ok (replicate maxlen fill)
  | _ =>
      let trunc := slice_last maxlen s in
      if decide (length trunc <= maxlen)
      then Ok (replicate (maxlen - length trunc) fill ++ trunc)
      else if decide (length trunc = 1)
      then Ok (replicate maxlen fill)
      else Raise ValueError
  end.

(** [pad_sequences(sequences, maxlen=maxlen, value=...)].  [fill] is the
    entry the array is initialised with: [value] itself for sequences of
    numbers, and a vector of [value] for sequences of vectors.  Entries
    are kept as they are: the cast to [dtype='int32'] is not modelled. *)
Definition pad_sequences {A} (sequences : list (list A)) (maxlen : nat)
    (fill : A) : result (list (list A)) :=
  for_each (pad_row maxlen fill) sequences.

(** The shape of one entry of a sequence of vectors, taken by
    [pad_sequences] from the first sequence that is not empty. *)
Fixpoint sample_width {A} (sequences : list (list (list A))) : nat :=
  match sequences with
  | [] => 0
  | [] :: rest => sample_width rest
  | (v :: _) :: _ => length v
  end.

End Keras.

(** ** The notebooks *)

Module Notebook1.
Import Pandas Sklearn Keras.

(** "Index the sentences, and remove the prefix (I and B) of entity
    tags": the cells that follow [read_csv], in their order, on the frame
    it returned, for columns kept as strings: the [entity] column, the
    [sentence] column and [dropna]. *)
Definition index_sentences (train : list raw_row) : list token :=
  let train := assign_entity <$> train in
  let sentence := cumsum (isnull_all <$> train) in
  dropna (zip train sentence).

(** "Read in the training data, index the sentences, and remove the
    prefix (I and B) of entity tags", from the rows [ls] of an accepted
    file.  The test file goes through the same four cells. *)
Definition load (ls : list line) : list token :=
  index_sentences (frame ls).

(** The same four cells from the text of the file.  [read_csv] may refuse
    the file, and [train["origin_entity"].str] raises when the column of
    the tags holds no string.  The model says nothing ([None]) when the
    type of the tags is not decided, and when rows are left whose words
    are not known to be kept as strings (the encoders would then work on
    numbers). *)
Definition load_file (text : string) : option (result (list token)) :=
  r ← read_csv text;
  match r with
  | Raise e => Some (Raise e)
  | Ok train =>
      a ← str_accessor (raw_origin_entity <$> train);
      match a with
      | Raise e => Some (Raise e)
      | Ok _ =>
          match index_sentences train with
          | [] => Some (Ok [])
          | tokens =>
              match column_dtype (raw_word <$> train) with
              | Some object_ => Some (Ok tokens)
              | _ => None
              end
          end
      end
  end.

Definition entity_tag_encoder (train : list token) : LabelEncoder :=
  (fit_transform (t_entity <$> train)).1.

(** [train.groupby('sentence').agg('count')['word']], the series the
    histogram of sentence lengths is drawn from: for every sentence number
    the count of its non-NaN words. *)
Definition sentence_lengths (train : list token) : list (nat * nat) :=
  (fun g : nat * list string => (g.1, length g.2))
    <$> groupby t_sentence t_word train.

Definition word_encoder (train : list token) : LabelEncoder :=
  (fit_transform (t_word <$> train)).1.

(** The columns [train['y']] and [train['x']]. *)
Definition train_y (train : list token) : list nat :=
  (fit_transform (t_entity <$> train)).2.

Definition train_x (train : list token) : list nat :=
  (fit_transform (t_word <$> train)).2.

Definition onehot_encoder (train : list token) : result LabelBinarizer :=
  lb_fit (train_y train).

(** [train.groupby('sentence')['x'].apply(list)], and the same for
    ['y']: a series indexed by the sentence number. *)
Definition x_train_sentence (train : list token) : list (nat * list nat) :=
  groupby (fun r => t_sentence r.1) snd (zip train (train_x train)).

Definition y_train_tag (train : list token) : list (nat * list nat) :=
  groupby (fun r => t_sentence r.1) snd (zip train (train_y train)).

Definition y_train_tag_onehot (train : list token)
    : result (list (list (list Z))) :=
  lb ← onehot_encoder train;
  Ok ((fun group : nat * list nat => lb_transform lb group.2)
        <$> y_train_tag train).

(** [pad_sequences(x_train_sentence, maxlen=100, value=-1)]. *)
Definition x_train_seq (train : list token) : result (list (list Z)) :=
  pad_sequences
    ((fun s : nat * list nat => Z.of_nat <$> s.2) <$> x_train_sentence train)
    100 (-1)%Z.

(** [pad_sequences(y_train_tag_onehot, maxlen=100, value=0)]. *)
Definition y_train_seq (train : list token)
    : result (list (list (list Z))) :=
  seqs ← y_train_tag_onehot train;
  pad_sequences seqs 100 (replicate (sample_width seqs) 0%Z).

(** The body of the loop that fills the embedding matrix:
    [embedding_matrix[i] = GloVe.loc[word]]. *)
Definition embedding_assign {F} (GloVe : list (cell * list F))
    (m : list (list F)) (i : nat) (w : string) : result (list (list F)) :=
  v ← loc GloVe w;
  match v with
  | Series v => Numpy.setitem_row 50 m i v
  | DataFrame _ => Raise ValueError
  end.

(** [embedding_matrix = np.zeros((len(word_encoder.classes_) + 1, 50))]
    followed by the loop over [enumerate(word_encoder.classes_)] with its
    [try: ... except: pass]. *)
Definition embedding_matrix {F} (zero : F) (GloVe : list (cell * list F))
    (enc : LabelEncoder) : list (list F) :=
  foldl (fun m iw => try_except_pass m (embedding_assign GloVe m iw.1 iw.2))
        (Numpy.zeros zero (length (classes_ enc) + 1) 50)
        (enumerate (classes_ enc)).

(** [test['y'] = entity_tag_encoder.transform(test.entity)]. *)
Definition test_y (train test : list token) : result (list nat) :=
  transform (entity_tag_encoder train) (t_entity <$> test).

(** [{word: idx for idx, word in enumerate(word_encoder.classes_)}]: a
    later pair overrides an earlier one with the same key. *)
Definition word_map (enc : LabelEncoder) : gmap string nat :=
  foldl (fun d iw => <[iw.2 := iw.1]> d) ∅ (enumerate (classes_ enc)).

(** [lambda x: word_map.get(x, len(word_encoder.classes_))]. *)
Definition encode_word (enc : LabelEncoder) (w : string) : nat :=
  default (length (classes_ enc)) (word_map enc !! w).

Definition test_x (train test : list token) : list nat :=
  encode_word (word_encoder train) <$> (t_word <$> test).

(** The cells of the notebook from [read_csv] to the padded arrays handed
    to [model.fit], in their order (the plot apart), run on the text of the
    training file. *)
Definition preprocess (text : string)
    : option (result (list (list Z) * list (list (list Z)))) :=
  r ← load_file text;
  Some (train ← r;
        _ ← onehot_encoder train;
        xs ← x_train_seq train;
        ys ← y_train_seq train;
        Ok (xs, ys)).

End Notebook1.

Module Notebook2.
Import Pandas Sklearn Keras.

(** The second notebook reads and encodes the training file with the
    same cells as the first. *)
Definition load := Notebook1.load.
Definition word_encoder := Notebook1.word_encoder.
Definition x_train_sentence := Notebook1.x_train_sentence.

(** [pad_sequences(x_train_sentence, maxlen=60)]: no [value] is passed,
    so the array is filled with the default, [0]. *)
Definition x_train_seq (train : list token) : result (list (list Z)) :=
  pad_sequences
    ((fun s : nat * list nat => Z.of_nat <$> s.2) <$> x_train_sentence train)
    60 0%Z.

(** [word_encoder.inverse_transform(x_train_sentence[k])]. *)
Definition sentence_words (train : list token) (k : nat)
    : result (list string) :=
  match list_find (fun s : nat * list nat => s.1 = k)
                  (x_train_sentence train) with
  | Some (_, s) => inverse_transform (word_encoder train) s.2
  | None => Raise KeyError
  end.

End Notebook2.

(** * Notions used in the statements *)

Import Pandas Sklearn Keras.

(** ** Entity tags *)

(** [s] has no hyphen. *)
Fixpoint hyphen_free (s : string) : Prop :=
  match s with
  | "" => True
  | String c s' => c <> "-"%char /\ hyphen_free s'
  end.

(** ** Indicator rows *)

(** The row of [K] entries that holds [1] at position [y] and [0]
    elsewhere. *)
Definition one_hot (K y : nat) : list Z :=
  (fun c => if decide (y = c) then 1%Z else 0%Z) <$> seq 0 K.

(** The id the frame gives the word, and the tag, of a token. *)
Definition word_id (train : list token) (t : token) : nat :=
  Numpy.searchsorted String.le
    (classes_ (Notebook1.word_encoder train)) (t_word t).

Definition tag_id (train : list token) (t : token) : nat :=
  Numpy.searchsorted String.le
    (classes_ (Notebook1.entity_tag_encoder train)) (t_entity t).

(** The width of the rows [lb_transform] returns. *)
Definition label_width (lb : LabelBinarizer) : nat :=
  match lb_classes_ lb with
  | [] | [_] | [_; _] => 1
  | cs => length cs
  end.

(** The rows [a] and [b] of a frame are in the order of their keys. *)
Definition by_key {A} (key : A -> nat) (a b : A) : Prop := key a <= key b.

(** The tokens of the sentence numbered [k]. *)
Definition sentence_tokens (train : list token) (k : nat) : list token :=
  filter (fun t => t_sentence t = k) train.

(** ** The dictionary of word ids *)

(** The dictionary the comprehension of [word_map] has built when it
    continues from [d] with the words [l], the first of them numbered
    [n]. *)
Definition word_map_from (n : nat) (d : gmap string nat) (l : list string)
    : gmap string nat :=
  foldl (fun d iw => <[iw.2 := iw.1]> d) d (enumerate_from n l).

(** ** The embedding loop *)

Section EmbeddingLoop.
Context {F : Type} (GloVe : list (cell * list F)).

(** The word [w] labels no row of the table. *)
Definition absent (w : string) : Prop :=
  forall r, r ∈ GloVe -> r.1 <> Some w.

(** The word [w] labels exactly one row of the table, which holds [v]. *)
Definition present_once (w : string) (v : list F) : Prop :=
  filter (fun r : cell * list F => r.1 = Some w) GloVe = [(Some w, v)].

(** The row the loop writes for the word [w], if it writes one. *)
Definition new_row (w : string) : option (list F) :=
  match loc GloVe w with
  | Ok (Series v) =>
      if decide (length v = 50) then Some v
      else match v with
           | [c] => Some (replicate 50 c)
           | _ => None
           end
  | _ => None
  end.

(** One turn of the loop, exception handler included. *)
Definition embedding_step (m : list (list F)) (iw : nat * string)
    : list (list F) :=
  try_except_pass m (Notebook1.embedding_assign GloVe m iw.1 iw.2).

Definition embedding_loop (n : nat) (m : list (list F)) (ws : list string)
    : list (list F) :=
  foldl embedding_step m (enumerate_from n ws).

End EmbeddingLoop.

(** ** Lines, rows and sentence numbers *)

(** The row a line becomes at position [n] of the file. *)
Definition row_of (n : nat) (l : line) : row := assign_entity (read_line n l).

(** The line reads as a row of NaN, which is what moves the sentence
    counter. *)
Definition boundary (l : line) : bool := isnull_all (row_of 0 l).

Definition count_boundary (ls : list line) : nat :=
  length (filter (fun l => boundary l = true) ls).

(** The four steps of [load] taken line by line, for the lines that start
    at position [n] of the file when the counter stands at [c]. *)
Fixpoint load_from (n c : nat) (ls : list line) : list token :=
  match ls with
  | [] => []
  | l :: ls' =>
      let c' := if boundary l then S c else c in
      match dropna_row (row_of n l, c') with
      | Some t => t :: load_from (S n) c' ls'
      | None => load_from (S n) c' ls'
      end
  end.

(** A record line: four fields, none of which reads as NaN. *)
Definition complete (l : line) : Prop :=
  exists a b c d, l = Line4 a b c d /\
    (a ∉ na_values) /\ (b ∉ na_values) /\ (c ∉ na_values) /\ (d ∉ na_values).

(** Every line is blank or a record line. *)
Definition well_formed (ls : list line) : Prop :=
  Forall (fun l => l = Line0 \/ complete l) ls.

Definition count_blank (ls : list line) : nat :=
  length (filter (fun l => l = Line0) ls).

(** The file ends with a token line, not with a blank line. *)
Definition ends_with_token (ls : list line) : bool :=
  match last ls with
  | Some l => bool_decide (l <> Line0)
  | None => false
  end.

(** A blank line stands only directly after a token line: there is no
    blank line at the start of the file and no two blank lines in a row.
    [after_token] tells whether the line before [ls] is a token line. *)
Fixpoint no_empty_sentence_from (after_token : bool) (ls : list line) : Prop :=
  match ls with
  | [] => True
  | l :: ls' =>
      if decide (l = Line0)
      then after_token = true /\ no_empty_sentence_from false ls'
      else no_empty_sentence_from true ls'
  end.

Definition no_empty_sentence (ls : list line) : Prop :=
  no_empty_sentence_from false ls.

(** Every line is blank or holds four fields, whatever the fields are. *)
Definition four_fields (ls : list line) : Prop :=
  Forall (fun l => l = Line0 \/ length (fields l) = 4) ls.

(** A non-blank line that does not hold exactly four fields. *)
Definition malformed (l : line) : Prop :=
  l <> Line0 /\ length (fields l) <> 4.

(** Whether the last line seen is a token line, when the line before [ls]
    is one or not according to [after_token]. *)
Definition ends_with_token_from (after_token : bool) (ls : list line) : bool :=
  match last ls with
  | Some l => bool_decide (l <> Line0)
  | None => after_token
  end.

(** A record line whose word and tag are plainly text: with one such line
    the columns of the words and of the tags are kept as strings. *)
Definition text_record (l : line) : Prop :=
  exists a b c d, l = Line4 a b c d /\ complete l /\
    plain_text a = true /\ plain_text d = true.

(** The text of the file with the lines [tls], each ended by a line
    feed. *)
Definition unlines (tls : list string) : string :=
  foldr (fun l text => String.append l (String newline text)) "" tls.

(** ** Lines without quotation marks *)

(** The line holds neither a quotation mark nor a line feed. *)
Fixpoint plain_line (s : string) : Prop :=
  match s with
  | "" => True
  | String c s' => c <> quotechar /\ c <> newline /\ plain_line s'
  end.

(** The string holds no quotation mark. *)
Fixpoint quote_free (s : string) : Prop :=
  match s with
  | "" => True
  | String c s' => c <> quotechar /\ quote_free s'
  end.

(** The string cut at every space: one field more than it has spaces. *)
Fixpoint cut (s : string) : list string :=
  match s with
  | "" => [""]
  | String c s' =>
      if Ascii.eqb c sep then "" :: cut s'
      else match cut s' with
           | f :: fs => String c f :: fs
           | [] => [String c ""]
           end
  end.

(** The fields of a line: none for the empty line, and otherwise the line
    cut at every space. *)
Definition cut_line (s : string) : list string :=
  match s with
  | "" => []
  | _ => cut s
  end.

(** The tag of the row is plainly text, plainly a number, or NaN. *)
Definition text_tag (l : line) : Prop :=
  exists d, column 3 l = Some d /\ plain_text d = true.

Definition number_tag (l : line) : Prop :=
  from_option plain_number true (column 3 l) = true.

(** ** Sample files *)

Definition sample_train : list token :=
  Notebook1.load
    [Line4 "China" "NNP" "I-NP" "I-ORG"; Line4 "says" "VBZ" "I-VP" "O";
     Line4 "Taiwan" "NNP" "I-NP" "I-LOC"; Line0;
     Line4 "Peter" "NNP" "I-NP" "I-PER"; Line4 "says" "VBZ" "I-VP" "O"].

(** A table of pretrained vectors with a single word. *)
Definition sample_GloVe : list (cell * list Z) :=
  [(Some "says", replicate 50 7%Z)].

Definition sample_lines : list line :=
  [Line4 "China" "NNP" "I-NP" "I-ORG"; Line4 "says" "VBZ" "I-VP" "O";
   Line0; Line4 "Peter" "NNP" "I-NP" "I-PER"].

(** A file with a line of three fields, and its rows. *)
Definition sample_short_text : string :=
  unlines ["China NNP I-NP I-ORG"; "rejects VBZ I-VP";
           "German JJ I-NP I-MISC"].

Definition sample_short : list line :=
  [Line4 "China" "NNP" "I-NP" "I-ORG"; Line3 "rejects" "VBZ" "I-VP";
   Line4 "German" "JJ" "I-NP" "I-MISC"].

Definition sample_text : string :=
  unlines ["China NNP I-NP I-ORG"; "says VBZ I-VP O"; "";
           "Peter NNP I-NP I-PER"].

(** The line of the corpus for a quotation mark: the mark as word and as
    part of speech, [O] as chunk and as tag.  The tokenizer reads the
    first mark as the start of a quoted field, which the second mark
    closes: the row has three fields, the first of which is a space. *)
Definition quote_line : string :=
  String quotechar (String " " (String quotechar " O O")).

Definition sample_quote_text : string :=
  unlines [quote_line; ""; "China NNP I-NP I-ORG"].

Definition sample_quote : list line :=
  [Line3 " " "O" "O"; Line0; Line4 "China" "NNP" "I-NP" "I-ORG"].

(** A file that starts with a blank line, and a file with a sentence
    whose only word reads as NaN. *)
Definition sample_leading_blank_text : string :=
  unlines [""; "China NNP I-NP I-ORG"].

Definition sample_leading_blank : list line :=
  [Line0; Line4 "China" "NNP" "I-NP" "I-ORG"].

Definition sample_null_text : string :=
  unlines ["China NNP I-NP I-ORG"; ""; "null NN I-NP O"; ""].

Definition sample_null : list line :=
  [Line4 "China" "NNP" "I-NP" "I-ORG"; Line0;
   Line4 "null" "NN" "I-NP" "O"; Line0].

(** [s ∉ na_values] for a literal [s], and [complete l] for a literal
    line. *)
Ltac not_na :=
  let H := fresh in
  vm_compute; intros H;
  repeat (apply elem_of_cons in H as [H|H]; [discriminate|]);
  now apply elem_of_nil in H.

Ltac record_line :=
  do 4 eexists; split; [reflexivity|]; repeat split; not_na.

(** * Properties *)

(** ** The exception monad *)

Lemma for_each_Ok_length {A B} (f : A -> result B) xs ys :
  for_each f xs = Ok ys -> length ys = length xs.
Proof.
  revert ys; induction xs as [|x xs IH]; intros ys; simpl.
  - intros [= <-]. reflexivity.
  - destruct (f x) as [y|e]; simpl; [|discriminate].
    destruct (for_each f xs) as [ys'|e]; simpl; [|discriminate].
    intros [= <-]. simpl. f_equal. now apply IH.
Qed.

Lemma for_each_Ok_lookup {A B} (f : A -> result B) xs ys i x :
  for_each f xs = Ok ys -> xs !! i = Some x ->
  exists y, ys !! i = Some y /\ f x = Ok y.
Proof.
  revert ys i; induction xs as [|x0 xs IH]; intros ys i; simpl.
  - intros _ Hx. rewrite lookup_nil in Hx. discriminate.
  - destruct (f x0) as [y0|e] eqn:Hy0; simpl; [|discriminate].
    destruct (for_each f xs) as [ys'|e]; simpl; [|discriminate].
    intros [= <-]. destruct i as [|i]; simpl.
    + intros [= <-]. eauto.
    + intros Hx. now apply IH.
Qed.

Lemma for_each_all_Ok {A B} (f : A -> result B) (g : A -> B) xs :
  (forall x, x ∈ xs -> f x = Ok (g x)) -> for_each f xs = Ok (g <$> xs).
Proof.
  induction xs as [|x xs IH]; intros H; simpl; [reflexivity|].
  rewrite H by left. simpl. rewrite IH; [reflexivity|].
  intros x' Hx'. apply H. now right.
Qed.

Lemma for_each_Raise {A B} (f : A -> result B) xs x e :
  x ∈ xs -> f x = Raise e -> exists e', for_each f xs = Raise e'.
Proof.
  induction xs as [|x0 xs IH]; intros Hin Hf.
  - inversion Hin.
  - simpl. apply elem_of_cons in Hin as [->|Hin].
    + rewrite Hf. simpl. eauto.
    + destruct (f x0); simpl; [|eauto].
      destruct (IH Hin Hf) as [e' ->]. simpl. eauto.
Qed.

(** ** [np.unique] and [np.searchsorted] over a total order *)

Section UniqueFacts.
Context {A : Type} (R : relation A) `{!RelDecision R} `{!EqDecision A}.
Context `{!PartialOrder R} `{!Total R}.

Lemma elem_of_insert_unique x y l :
  y ∈ Numpy.insert_unique R x l <-> y = x \/ y ∈ l.
Proof.
  induction l as [|z l IH]; simpl.
  - rewrite list_elem_of_singleton, elem_of_nil. tauto.
  - repeat case_decide; subst; rewrite ?elem_of_cons, ?IH; tauto.
Qed.

Lemma elem_of_unique x l : x ∈ Numpy.unique R l <-> x ∈ l.
Proof.
  induction l as [|z l IH]; simpl; [reflexivity|].
  rewrite elem_of_insert_unique, IH, elem_of_cons. tauto.
Qed.

Lemma strict_of_neq x y : x <> y -> R x y -> strict R x y.
Proof.
  intros Hne Hxy. split; [assumption|].
  intros Hyx. apply Hne. now apply (anti_symm R).
Qed.

Lemma strict_of_not x y : ~ R x y -> strict R y x.
Proof.
  intros Hn. destruct (total R x y) as [?|Hyx]; [contradiction|].
  split; assumption.
Qed.

Lemma insert_unique_sorted x l :
  StronglySorted (strict R) l ->
  StronglySorted (strict R) (Numpy.insert_unique R x l).
Proof.
  induction 1 as [|z l Hl IH Hz]; simpl.
  - repeat constructor.
  - repeat case_decide; subst.
    + now constructor.
    + assert (strict R x z) by now apply strict_of_neq.
      constructor; [now constructor|].
      constructor; [assumption|].
      eapply Forall_impl; [exact Hz|].
      intros w Hw. now transitivity z.
    + constructor; [assumption|].
      apply Forall_forall. intros w Hw.
      apply elem_of_insert_unique in Hw as [->|Hw].
      * now apply strict_of_not.
      * rewrite Forall_forall in Hz. now apply Hz.
Qed.

Lemma unique_sorted l : StronglySorted (strict R) (Numpy.unique R l).
Proof.
  induction l as [|x l IH]; simpl; [constructor|].
  now apply insert_unique_sorted.
Qed.

Lemma sorted_NoDup l : StronglySorted (strict R) l -> NoDup l.
Proof.
  induction 1 as [|z l Hl IH Hz]; constructor; [|assumption].
  intros Hin. rewrite Forall_forall in Hz.
  destruct (Hz z Hin) as [Hzz Hn]. now apply Hn.
Qed.

Lemma unique_NoDup l : NoDup (Numpy.unique R l).
Proof. apply sorted_NoDup, unique_sorted. Qed.

(** On a sorted array without duplicates, [searchsorted] finds the
    position of each of its elements. *)
Lemma searchsorted_lookup l i w :
  StronglySorted (strict R) l -> l !! i = Some w ->
  Numpy.searchsorted R l w = i.
Proof.
  intros Hl; revert i; induction Hl as [|z l Hl IH Hz]; intros i Hi.
  - rewrite lookup_nil in Hi. discriminate.
  - simpl. destruct i as [|i]; simpl in Hi.
    + injection Hi as ->. case_decide as Hd; [|reflexivity].
      destruct Hd as [Hne _]. now contradict Hne.
    + assert (Hin : w ∈ l) by (eapply list_elem_of_lookup_2; eassumption).
      rewrite Forall_forall in Hz. destruct (Hz w Hin) as [Hzw Hn].
      case_decide as Hd.
      * f_equal. now apply IH.
      * contradict Hd. split; [|assumption].
        intros ->. now apply Hn.
Qed.

Lemma searchsorted_elem l w :
  StronglySorted (strict R) l -> w ∈ l ->
  l !! Numpy.searchsorted R l w = Some w.
Proof.
  intros Hl Hin. apply list_elem_of_lookup_1 in Hin as [i Hi].
  now rewrite (searchsorted_lookup l i w Hl Hi).
Qed.
End UniqueFacts.

(** ** Entity tags: [str.rsplit("-", 1).str[-1]] *)

Lemma append_String c p s : String c p +:+ s = String c (p +:+ s).
Proof. reflexivity. Qed.

(** [rsplit1] returns the string itself when it has no hyphen, and
    otherwise the two sides of its last hyphen. *)
Lemma rsplit1_cases s :
  (hyphen_free s /\ rsplit1 "-" s = [s]) \/
  (exists p t, s = p +:+ String "-" t /\ hyphen_free t /\
               rsplit1 "-" s = [p; t]).
Proof.
  induction s as [|c s IH]; simpl.
  - left. split; [exact I|reflexivity].
  - destruct IH as [[Hfree ->]|(p & t & -> & Hfree & ->)].
    + destruct (Ascii.eqb_spec c "-") as [->|Hne].
      * right. exists "", s. repeat split; assumption.
      * left. repeat split; assumption.
    + right. exists (String c p), t. rewrite append_String.
      repeat split; assumption.
Qed.

Lemma rsplit1_hyphen_free s : hyphen_free s -> rsplit1 "-" s = [s].
Proof.
  induction s as [|c s IH]; simpl; [reflexivity|].
  intros [Hc Hs]. rewrite (IH Hs).
  destruct (Ascii.eqb_spec c "-"); [contradiction|reflexivity].
Qed.

(** C5.  The [entity] column holds, for every raw tag, the part of the tag
    after its last hyphen, and the whole tag when it has no hyphen (so ["O"]
    stays ["O"]); the result has no hyphen, and normalising a normalised
    cell gives it back.  NaN stays NaN. *)
Theorem entity_normalization_idempotent :
  (forall s, exists t,
      str_rsplit_last (Some s) = Some t /\ hyphen_free t /\
      ((hyphen_free s /\ t = s) \/ (exists p, s = p +:+ String "-" t))) /\
  str_rsplit_last (Some "O") = Some "O" /\
  (forall c, str_rsplit_last (str_rsplit_last c) = str_rsplit_last c).
Proof.
  assert (Hspec : forall s, exists t,
      str_rsplit_last (Some s) = Some t /\ hyphen_free t /\
      ((hyphen_free s /\ t = s) \/ (exists p, s = p +:+ String "-" t))).
  { intros s. unfold str_rsplit_last. simpl.
    destruct (rsplit1_cases s) as [[Hfree ->]|(p & t & -> & Hfree & ->)].
    - exists s. simpl. auto.
    - exists t. simpl. eauto. }
  split; [exact Hspec|]. split; [reflexivity|].
  intros [s|]; [|reflexivity].
  destruct (Hspec s) as (t & -> & Hfree & _).
  unfold str_rsplit_last. simpl. now rewrite rsplit1_hyphen_free.
Qed.

(** ** Padding: [pad_sequences] *)

Lemma pad_row_spec {A} (L : nat) (fill : A) (s : list A) :
  0 < L ->
  pad_row L fill s
  = Ok (replicate (L - length s) fill ++ drop (length s - L) s).
Proof.
  intros HL. unfold pad_row. destruct s as [|a s].
  - simpl. rewrite Nat.sub_0_r, app_nil_r. reflexivity.
  - unfold slice_last. destruct L as [|L]; [lia|].
    set (s' := a :: s). rewrite length_drop.
    case_decide; [|lia]. do 3 f_equal. lia.
Qed.

Lemma pad_sequences_eq {A} (seqs : list (list A)) (L : nat) (fill : A) :
  0 < L ->
  pad_sequences seqs L fill
  = Ok ((fun s => replicate (L - length s) fill ++ drop (length s - L) s)
          <$> seqs).
Proof.
  intros HL. unfold pad_sequences. apply for_each_all_Ok.
  intros s _. now apply pad_row_spec.
Qed.

(** C3.  For a target length [L] of at least one, [pad_sequences] returns
    one row per sentence and every row has length exactly [L]: a sentence
    of more than [L] ids keeps its last [L] ids in order, and a shorter one
    is its ids, in order, behind [L - length s] copies of the filling
    value. *)
Theorem pad_sequences_length_exact {A} (seqs : list (list A)) (L : nat)
    (fill : A) :
  0 < L ->
  exists batch,
    pad_sequences seqs L fill = Ok batch /\
    length batch = length seqs /\
    forall i s, seqs !! i = Some s ->
      exists row,
        batch !! i = Some row /\ length row = L /\
        (L < length s -> row = drop (length s - L) s) /\
        (length s <= L -> row = replicate (L - length s) fill ++ s).
Proof.
  intros HL. rewrite pad_sequences_eq by assumption.
  eexists. split; [reflexivity|]. split; [now rewrite length_fmap|].
  intros i s Hs. eexists. split; [rewrite list_lookup_fmap, Hs; reflexivity|].
  split; [|split].
  - rewrite length_app, length_replicate, length_drop. lia.
  - intros Hlt. replace (L - length s) with 0 by lia. reflexivity.
  - intros Hle. replace (length s - L) with 0 by lia. reflexivity.
Qed.

Lemma pad_sequences_length_exact_witness :
  exists batch,
    pad_sequences [[1; 2; 3]; [4]; [5; 6; 7; 8; 9]] 4 0 = Ok batch /\
    batch = [[0; 1; 2; 3]; [0; 0; 0; 4]; [6; 7; 8; 9]].
Proof.
  destruct (pad_sequences_length_exact [[1; 2; 3]; [4]; [5; 6; 7; 8; 9]] 4 0)
    as (batch & Hb & _); [lia|].
  exists batch. split; [exact Hb|].
  vm_compute in Hb. now injection Hb as <-.
Defined.

(** ** The fitted encoders *)

Lemma fit_classes_elem y w : w ∈ classes_ (fit y) <-> w ∈ y.
Proof. apply (elem_of_unique String.le). Qed.

Lemma fit_classes_sorted y : StronglySorted (strict String.le) (classes_ (fit y)).
Proof. apply (unique_sorted String.le). Qed.

Lemma fit_classes_NoDup y : NoDup (classes_ (fit y)).
Proof. apply (unique_NoDup String.le). Qed.

(** The id [fit_transform] gives a label is the label's position in
    [classes_]. *)
Lemma fit_transform_lookup y i w :
  y !! i = Some w ->
  exists x, (fit_transform y).2 !! i = Some x /\
            classes_ (fit y) !! x = Some w.
Proof.
  intros Hi. unfold fit_transform. simpl.
  rewrite list_lookup_fmap, Hi. simpl. eexists. split; [reflexivity|].
  apply (searchsorted_elem String.le); [apply fit_classes_sorted|].
  apply fit_classes_elem. eapply list_elem_of_lookup_2; eassumption.
Qed.

(** *** The dictionary [word_map] *)

Lemma word_map_from_absent n d l w :
  w ∉ l -> word_map_from n d l !! w = d !! w.
Proof.
  revert n d; induction l as [|x l IH]; intros n d Hw; [reflexivity|].
  apply not_elem_of_cons in Hw as [Hne Hw].
  unfold word_map_from in *. simpl. rewrite (IH _ _ Hw).
  now apply lookup_insert_ne.
Qed.

Lemma word_map_from_lookup n d l i w :
  NoDup l -> l !! i = Some w -> word_map_from n d l !! w = Some (n + i).
Proof.
  intros Hnd; revert n d i.
  induction Hnd as [|x l Hx Hnd IH]; intros n d i Hi.
  - rewrite lookup_nil in Hi. discriminate.
  - destruct i as [|i]; simpl in Hi.
    + injection Hi as ->.
      change (word_map_from (S n) (<[w := n]> d) l !! w = Some (n + 0)).
      rewrite (word_map_from_absent _ _ _ _ Hx), lookup_insert_eq.
      f_equal. lia.
    + change (word_map_from (S n) (<[x := n]> d) l !! w = Some (n + S i)).
      rewrite (IH _ _ _ Hi). f_equal. lia.
Qed.

Lemma word_map_absent enc w :
  w ∉ classes_ enc -> Notebook1.word_map enc !! w = None.
Proof.
  intros Hw. unfold Notebook1.word_map, enumerate.
  change (word_map_from 0 ∅ (classes_ enc) !! w = None).
  now rewrite word_map_from_absent.
Qed.

Lemma word_map_lookup enc i w :
  NoDup (classes_ enc) -> classes_ enc !! i = Some w ->
  Notebook1.word_map enc !! w = Some i.
Proof.
  intros Hnd Hi.
  change (word_map_from 0 ∅ (classes_ enc) !! w = Some i).
  now rewrite (word_map_from_lookup 0 ∅ _ i w Hnd Hi).
Qed.

Lemma word_encoder_fit train :
  Notebook1.word_encoder train = fit (t_word <$> train).
Proof. reflexivity. Qed.

Lemma entity_tag_encoder_fit train :
  Notebook1.entity_tag_encoder train = fit (t_entity <$> train).
Proof. reflexivity. Qed.

(** C6.  With [V] the number of words of the fitted vocabulary, a word that
    does not occur in the training frame is encoded as [V], and a word that
    occurs there is encoded as the id it was fitted with, its position in
    [classes_]; the encoding is a total function, so nothing is raised. *)
Theorem encode_word_out_of_vocabulary (train : list token) (w : string) :
  let enc := Notebook1.word_encoder train in
  let V := length (classes_ enc) in
  (w ∉ t_word <$> train -> Notebook1.encode_word enc w = V) /\
  (w ∈ t_word <$> train ->
     Notebook1.encode_word enc w < V /\
     classes_ enc !! Notebook1.encode_word enc w = Some w /\
     forall i t, train !! i = Some t -> t_word t = w ->
       Notebook1.train_x train !! i = Some (Notebook1.encode_word enc w)).
Proof.
  intros enc V. unfold Notebook1.encode_word. split.
  - intros Hw. rewrite word_map_absent; [reflexivity|].
    unfold enc. now rewrite word_encoder_fit, fit_classes_elem.
  - intros Hw.
    assert (Hin : w ∈ classes_ enc)
      by (unfold enc; now rewrite word_encoder_fit, fit_classes_elem).
    apply list_elem_of_lookup_1 in Hin as [k Hk].
    unfold enc in *. rewrite word_encoder_fit in *.
    rewrite (word_map_lookup _ k w (fit_classes_NoDup _) Hk). simpl.
    split; [now apply lookup_lt_Some in Hk|]. split; [exact Hk|].
    intros i t Hi Hword.
    destruct (fit_transform_lookup (t_word <$> train) i w) as (x & Hx & Hcl).
    { rewrite list_lookup_fmap, Hi. simpl. now f_equal. }
    unfold Notebook1.train_x. rewrite Hx. f_equal.
    eapply NoDup_lookup; [apply fit_classes_NoDup|exact Hcl|exact Hk].
Qed.

Lemma encode_word_out_of_vocabulary_witness :
  Notebook1.encode_word (Notebook1.word_encoder sample_train) "Zyzzyx" = 4 /\
  Notebook1.encode_word (Notebook1.word_encoder sample_train) "says" < 4.
Proof.
  split.
  - apply (encode_word_out_of_vocabulary sample_train "Zyzzyx").
    vm_compute. intros H. repeat (apply elem_of_cons in H as [H|H]; [discriminate|]).
    now apply elem_of_nil in H.
  - apply (encode_word_out_of_vocabulary sample_train "says").
    vm_compute. do 1 right. left.
Defined.

(** C7.  Encoding the tags of another split with the encoder fitted on the
    training frame raises [ValueError] ("y contains new labels", the
    unknown-label error) exactly when some tag of the split does not occur
    in the training frame; when every tag occurs there, nothing is raised
    and every token gets the id its tag was fitted with. *)
Theorem test_labels_closed_vocabulary (train test : list token) :
  let enc := Notebook1.entity_tag_encoder train in
  (Notebook1.test_y train test = Raise ValueError <->
   exists t, t ∈ test /\ t_entity t ∉ t_entity <$> train) /\
  ((forall t, t ∈ test -> t_entity t ∈ t_entity <$> train) ->
   exists ys,
     Notebook1.test_y train test = Ok ys /\ length ys = length test /\
     forall i t, test !! i = Some t ->
       exists y, ys !! i = Some y /\ classes_ enc !! y = Some (t_entity t)).
Proof.
  intros enc. unfold Notebook1.test_y, transform. fold enc.
  assert (Hseen : forall t, t_entity t ∈ classes_ enc <->
                            t_entity t ∈ t_entity <$> train).
  { intros t. unfold enc.
    now rewrite entity_tag_encoder_fit, fit_classes_elem. }
  assert (Hsorted : StronglySorted (strict String.le) (classes_ enc)).
  { unfold enc. rewrite entity_tag_encoder_fit. apply fit_classes_sorted. }
  case_decide as Hall; rewrite Forall_fmap, Forall_forall in Hall.
  - split.
    + split; [discriminate|].
      intros (t & Ht & Hn). contradict Hn. apply Hseen, (Hall t Ht).
    + intros _. eexists. split; [reflexivity|].
      split; [now rewrite !length_fmap|].
      intros i t Hi. rewrite !list_lookup_fmap, Hi. simpl.
      eexists. split; [reflexivity|].
      apply (searchsorted_elem String.le); [exact Hsorted|apply (Hall t)].
      eapply list_elem_of_lookup_2; eassumption.
  - split.
    + split; [intros _|reflexivity].
      destruct (decide (Forall (fun t => t_entity t ∈ classes_ enc) test))
        as [Hf|Hf].
      * contradict Hall. rewrite Forall_forall in Hf. exact Hf.
      * apply not_Forall_Exists in Hf; [|intros t; apply _].
        apply Exists_exists in Hf as (t & Ht & Hn).
        exists t. split; [exact Ht|]. simpl in Hn. now rewrite <- Hseen.
    + intros Hok. contradict Hall. intros t Ht. apply Hseen, Hok, Ht.
Qed.

Lemma test_labels_closed_vocabulary_witness :
  exists ys,
    Notebook1.test_y sample_train
      (Notebook1.load [Line4 "Taiwan" "NNP" "I-NP" "B-LOC";
                       Line4 "spoils" "VBZ" "I-VP" "O"]) = Ok ys /\
    length ys = 2.
Proof.
  destruct (test_labels_closed_vocabulary sample_train
    (Notebook1.load [Line4 "Taiwan" "NNP" "I-NP" "B-LOC";
                     Line4 "spoils" "VBZ" "I-VP" "O"])) as [_ H].
  destruct H as (ys & Hys & Hlen & _).
  - vm_compute. intros t Ht.
    repeat (apply elem_of_cons in Ht as [->|Ht]; [simpl|]).
    + do 2 right. left.
    + right. left.
    + now apply elem_of_nil in Ht.
  - exists ys. split; [exact Hys|exact Hlen].
Defined.

(** *** Round trip through [inverse_transform] *)

Lemma inverse_transform_searchsorted enc (l : list string) :
  StronglySorted (strict String.le) (classes_ enc) ->
  (forall w, w ∈ l -> w ∈ classes_ enc) ->
  inverse_transform enc (Numpy.searchsorted String.le (classes_ enc) <$> l)
  = Ok l.
Proof.
  intros Hs. unfold inverse_transform.
  induction l as [|w l IH]; intros Hin; [reflexivity|].
  rewrite fmap_cons. cbn [for_each].
  rewrite (searchsorted_elem String.le) by (auto; apply Hin; left).
  cbn [Py.bind]. rewrite IH; [reflexivity|].
  intros w' Hw'. apply Hin. now right.
Qed.

(** C8.  The fitted vocabulary lists the distinct words of the training
    frame in increasing (byte) order without repetition, so positions
    [0..V-1] and distinct words correspond one to one; the id of a word is
    its position, and [inverse_transform] maps the id of every token of the
    frame back to the token's word. *)
Theorem vocabulary_round_trip (train : list token) :
  let enc := Notebook1.word_encoder train in
  let V := length (classes_ enc) in
  NoDup (classes_ enc) /\
  StronglySorted (strict String.le) (classes_ enc) /\
  (forall w, w ∈ classes_ enc <-> w ∈ t_word <$> train) /\
  (forall i, i < V ->
     exists w, classes_ enc !! i = Some w /\ w ∈ t_word <$> train /\
               Numpy.searchsorted String.le (classes_ enc) w = i) /\
  (forall i t, train !! i = Some t ->
     exists x, Notebook1.train_x train !! i = Some x /\ x < V /\
               classes_ enc !! x = Some (t_word t) /\
               inverse_transform enc [x] = Ok [t_word t]) /\
  inverse_transform enc (Notebook1.train_x train) = Ok (t_word <$> train).
Proof.
  intros enc V. unfold V, enc. rewrite word_encoder_fit.
  pose proof (fit_classes_sorted (t_word <$> train)) as Hs.
  split; [apply fit_classes_NoDup|]. split; [exact Hs|].
  split; [intros w; apply fit_classes_elem|]. split; [|split].
  - intros i Hi. apply lookup_lt_is_Some_2 in Hi as [w Hw]. exists w.
    split; [exact Hw|]. split.
    + apply fit_classes_elem. eapply list_elem_of_lookup_2; eassumption.
    + now apply (searchsorted_lookup String.le).
  - intros i t Hi.
    destruct (fit_transform_lookup (t_word <$> train) i (t_word t))
      as (x & Hx & Hcl); [now rewrite list_lookup_fmap, Hi|].
    exists x. split; [exact Hx|]. split; [now apply lookup_lt_Some in Hcl|].
    split; [exact Hcl|].
    unfold inverse_transform. cbn [for_each]. now rewrite Hcl.
  - apply inverse_transform_searchsorted; [exact Hs|].
    intros w. apply fit_classes_elem.
Qed.

Lemma vocabulary_round_trip_witness :
  inverse_transform (Notebook1.word_encoder sample_train)
    (Notebook1.train_x sample_train)
  = Ok ["China"; "says"; "Taiwan"; "Peter"; "says"].
Proof. apply (vocabulary_round_trip sample_train). Defined.

(** ** The embedding matrix *)

Lemma filter_none {A} (P : A -> Prop) `{!forall x, Decision (P x)} (l : list A) :
  (forall x, x ∈ l -> ~ P x) -> filter P l = [].
Proof.
  induction l as [|x l IH]; intros Hl; [reflexivity|].
  rewrite filter_cons. case_decide as Hx.
  - exfalso. apply (Hl x); [left|exact Hx].
  - apply IH. intros x' Hx'. apply Hl. now right.
Qed.

Section EmbeddingMatrix.
Context {F : Type} (GloVe : list (cell * list F)).
Local Abbreviation absent := (absent GloVe).
Local Abbreviation present_once := (present_once GloVe).
Local Abbreviation new_row := (new_row GloVe).
Local Abbreviation embedding_step := (embedding_step GloVe).
Local Abbreviation embedding_loop := (embedding_loop GloVe).

Lemma embedding_step_eq m i w :
  embedding_step m (i, w)
  = match new_row w with Some r => <[i := r]> m | None => m end.
Proof.
  unfold embedding_step, Notebook1.embedding_assign, new_row. simpl.
  destruct (loc GloVe w) as [[v|rows]|e]; simpl; try reflexivity.
  unfold Numpy.setitem_row. case_decide; [reflexivity|].
  destruct v as [|c [|c' v]]; reflexivity.
Qed.

Lemma new_row_width w r : new_row w = Some r -> length r = 50.
Proof.
  unfold new_row. destruct (loc GloVe w) as [[v|rows]|e]; try discriminate.
  case_decide; [congruence|].
  destruct v as [|c [|c' v]]; try discriminate.
  intros E. injection E as <-. reflexivity.
Qed.

Lemma new_row_absent w : absent w -> new_row w = None.
Proof.
  intros Hw. unfold new_row, loc. rewrite filter_none; [reflexivity|].
  exact Hw.
Qed.

Lemma new_row_present_once w v :
  present_once w v -> length v = 50 -> new_row w = Some v.
Proof.
  unfold present_once, new_row, loc. intros -> Hlen. simpl.
  case_decide; [reflexivity|contradiction].
Qed.

Lemma embedding_step_length m iw :
  length (embedding_step m iw) = length m.
Proof.
  destruct iw as [i w]. rewrite embedding_step_eq.
  destruct (new_row w); [apply length_insert|reflexivity].
Qed.

Lemma embedding_step_width m iw :
  Forall (fun r => length r = 50) m ->
  Forall (fun r => length r = 50) (embedding_step m iw).
Proof.
  intros Hm. destruct iw as [i w]. rewrite embedding_step_eq.
  destruct (new_row w) as [r|] eqn:Hr; [|assumption].
  apply Forall_insert; [assumption|]. now apply new_row_width in Hr.
Qed.

Lemma embedding_step_other m i w j :
  i <> j -> embedding_step m (i, w) !! j = m !! j.
Proof.
  intros Hne. rewrite embedding_step_eq.
  destruct (new_row w); [now apply list_lookup_insert_ne|reflexivity].
Qed.

Lemma embedding_loop_cons n m w ws :
  embedding_loop n m (w :: ws)
  = embedding_loop (S n) (embedding_step m (n, w)) ws.
Proof. reflexivity. Qed.

Lemma embedding_loop_length n m ws :
  length (embedding_loop n m ws) = length m.
Proof.
  revert n m; induction ws as [|w ws IH]; intros n m; [reflexivity|].
  now rewrite embedding_loop_cons, IH, embedding_step_length.
Qed.

Lemma embedding_loop_width n m ws :
  Forall (fun r => length r = 50) m ->
  Forall (fun r => length r = 50) (embedding_loop n m ws).
Proof.
  revert n m; induction ws as [|w ws IH]; intros n m Hm; [exact Hm|].
  rewrite embedding_loop_cons. now apply IH, embedding_step_width.
Qed.

(** Rows outside [n .. n + length ws - 1] are never written. *)
Lemma embedding_loop_outside n m ws j :
  j < n \/ n + length ws <= j -> embedding_loop n m ws !! j = m !! j.
Proof.
  revert n m; induction ws as [|w ws IH]; intros n m Hj; [reflexivity|].
  rewrite embedding_loop_cons. simpl in Hj.
  rewrite IH by lia. apply embedding_step_other. lia.
Qed.

(** Row [n + k] is written in the turn of the [k]-th word only. *)
Lemma embedding_loop_row n m ws k w :
  ws !! k = Some w -> n + k < length m ->
  embedding_loop n m ws !! (n + k)
  = match new_row w with Some r => Some r | None => m !! (n + k) end.
Proof.
  revert n m k; induction ws as [|w0 ws IH]; intros n m k Hk Hlt.
  - rewrite lookup_nil in Hk. discriminate.
  - rewrite embedding_loop_cons. destruct k as [|k]; simpl in Hk.
    + injection Hk as ->. rewrite Nat.add_0_r in *.
      rewrite embedding_loop_outside by lia.
      rewrite embedding_step_eq. destruct (new_row w); [|reflexivity].
      now apply list_lookup_insert_eq.
    + replace (n + S k) with (S n + k) in * by lia.
      rewrite (IH _ _ _ Hk) by (rewrite embedding_step_length; lia).
      destruct (new_row w); [reflexivity|].
      apply embedding_step_other. lia.
Qed.
End EmbeddingMatrix.

Lemma embedding_matrix_loop {F} (zero : F) GloVe enc :
  Notebook1.embedding_matrix zero GloVe enc
  = embedding_loop GloVe 0
      (Numpy.zeros zero (length (classes_ enc) + 1) 50) (classes_ enc).
Proof. reflexivity. Qed.

(** C9.  The embedding matrix has [V + 1] rows of 50 entries.  Row [i] is
    all zero whenever the word with id [i] labels no row of the GloVe table,
    and so is row [V], which belongs to no word: the failed lookup is
    swallowed by the handler and the loop goes on, so that a later word that
    labels exactly one row of 50 entries of the table still receives that
    row. *)
Theorem embedding_matrix_zero_rows {F} (zero : F)
    (GloVe : list (cell * list F)) (enc : LabelEncoder) :
  let V := length (classes_ enc) in
  let M := Notebook1.embedding_matrix zero GloVe enc in
  length M = V + 1 /\
  Forall (fun r => length r = 50) M /\
  (forall i, i <= V ->
     (forall w, classes_ enc !! i = Some w -> absent GloVe w) ->
     M !! i = Some (replicate 50 zero)) /\
  (forall i w v, classes_ enc !! i = Some w ->
     present_once GloVe w v -> length v = 50 -> M !! i = Some v).
Proof.
  intros V M. unfold M. rewrite embedding_matrix_loop. fold V.
  assert (Hz : forall i, i <= V ->
            Numpy.zeros zero (V + 1) 50 !! i = Some (replicate 50 zero)).
  { intros i Hi. unfold Numpy.zeros. apply lookup_replicate_2. lia. }
  assert (Hlen : length (Numpy.zeros zero (V + 1) 50) = V + 1)
    by apply length_replicate.
  split; [now rewrite embedding_loop_length|].
  split; [|split].
  - apply embedding_loop_width, Forall_replicate, length_replicate.
  - intros i Hi Habs. destruct (classes_ enc !! i) as [w|] eqn:Hw.
    + pose proof (lookup_lt_Some _ _ _ Hw) as Hlt.
      rewrite <- (Nat.add_0_l i).
      rewrite (embedding_loop_row _ _ _ _ _ _ Hw) by (rewrite Hlen; simpl; lia).
      rewrite (new_row_absent _ _ (Habs w eq_refl)). now apply Hz.
    + apply lookup_ge_None in Hw.
      rewrite embedding_loop_outside by (right; lia). now apply Hz.
  - intros i w v Hw Hv H50.
    pose proof (lookup_lt_Some _ _ _ Hw) as Hlt.
    rewrite <- (Nat.add_0_l i).
    rewrite (embedding_loop_row _ _ _ _ _ _ Hw) by (rewrite Hlen; simpl; lia).
    now rewrite (new_row_present_once _ _ _ Hv H50).
Qed.

Lemma embedding_matrix_zero_rows_witness :
  Notebook1.embedding_matrix 0%Z sample_GloVe
    (Notebook1.word_encoder sample_train) !! 0 = Some (replicate 50 0%Z) /\
  Notebook1.embedding_matrix 0%Z sample_GloVe
    (Notebook1.word_encoder sample_train) !! 4 = Some (replicate 50 0%Z) /\
  Notebook1.embedding_matrix 0%Z sample_GloVe
    (Notebook1.word_encoder sample_train) !! 3 = Some (replicate 50 7%Z).
Proof.
  destruct (embedding_matrix_zero_rows 0%Z sample_GloVe
              (Notebook1.word_encoder sample_train))
    as (_ & _ & Hzero & Hrow).
  split; [|split].
  - apply Hzero; [vm_compute; lia|].
    intros w Hw r Hr. vm_compute in Hw. injection Hw as <-.
    apply list_elem_of_singleton in Hr as ->. discriminate.
  - apply Hzero; [vm_compute; lia|].
    intros w Hw. vm_compute in Hw. discriminate.
  - apply (Hrow 3 "says"); reflexivity.
Defined.


(** ** Reading the corpus: rows, sentence numbers and [dropna] *)

Lemma omap_cons_match {A B} (f : A -> option B) x l :
  omap f (x :: l)
  = match f x with Some y => y :: omap f l | None => omap f l end.
Proof. reflexivity. Qed.

Lemma isnull_all_row_of n l : isnull_all (row_of n l) = boundary l.
Proof. reflexivity. Qed.

Lemma load_from_eq n c ls :
  dropna (zip (assign_entity <$> imap (fun i => read_line (n + i)) ls)
              (cumsum_from c (isnull_all <$>
                 (assign_entity <$> imap (fun i => read_line (n + i)) ls))))
  = load_from n c ls.
Proof.
  revert n c; induction ls as [|l ls IH]; intros n c; [reflexivity|].
  rewrite imap_cons, !fmap_cons. cbn [cumsum_from zip zip_with].
  rewrite Nat.add_0_r.
  rewrite (imap_ext _ (fun i => read_line (S n + i)))
    by (intros i x _; simpl; f_equal; lia).
  unfold dropna in *. rewrite omap_cons_match, IH. reflexivity.
Qed.

Lemma load_eq ls : Notebook1.load ls = load_from 0 0 ls.
Proof. exact (load_from_eq 0 0 ls). Qed.

Lemma count_boundary_cons l ls :
  count_boundary (l :: ls)
  = (if boundary l then 1 else 0) + count_boundary ls.
Proof.
  unfold count_boundary. rewrite filter_cons.
  destruct (boundary l); case_decide; simpl; congruence.
Qed.

(** A row [dropna] keeps does not come from a boundary line. *)
Lemma dropna_row_not_boundary n l c t :
  dropna_row (row_of n l, c) = Some t -> boundary l = false.
Proof.
  intros Ht. apply bool_decide_eq_false. intros [Hw _].
  unfold dropna_row in Ht. simpl in *. rewrite Hw in Ht. discriminate.
Qed.

(** The fields of a kept row are the four fields of its line. *)
Lemma dropna_row_Some n l c t :
  dropna_row (row_of n l, c) = Some t ->
  t_index t = n /\ t_sentence t = c /\
  column 0 l = Some (t_word t) /\ column 1 l = Some (t_POS t) /\
  column 2 l = Some (t_chunk t) /\ column 3 l = Some (t_origin_entity t) /\
  str_rsplit_last (column 3 l) = Some (t_entity t).
Proof.
  intros Ht. unfold dropna_row in Ht. simpl in Ht.
  destruct (column 0 l); simpl in Ht; [|discriminate].
  destruct (column 1 l); simpl in Ht; [|discriminate].
  destruct (column 2 l); simpl in Ht; [|discriminate].
  destruct (column 3 l) as [o|]; simpl in Ht; [|discriminate].
  unfold str_rsplit_last. simpl.
  destruct (last (rsplit1 "-" o)); simpl in Ht; [|discriminate].
  injection Ht as <-. simpl. repeat split; reflexivity.
Qed.

Lemma dropna_row_index n l c t :
  dropna_row (row_of n l, c) = Some t -> t_index t = n /\ t_sentence t = c.
Proof. intros Ht. apply dropna_row_Some in Ht. tauto. Qed.

(** The tokens of [load_from n c ls] are the rows [dropna] keeps, each
    with its line number and with the number of boundary lines before it. *)
Lemma elem_of_load_from n c ls t :
  t ∈ load_from n c ls <->
  exists k l, ls !! k = Some l /\
    dropna_row (row_of (n + k) l, c + count_boundary (take k ls)) = Some t.
Proof.
  revert n c; induction ls as [|l ls IH]; intros n c.
  - simpl. rewrite elem_of_nil. split; [tauto|].
    intros (k & l & Hk & _). rewrite lookup_nil in Hk. discriminate.
  - cbn [load_from].
    set (c' := if boundary l then S c else c).
    assert (Hhere : forall u, dropna_row (row_of n l, c') = Some u ->
                              dropna_row (row_of n l, c) = Some u).
    { intros u Hu. pose proof (dropna_row_not_boundary _ _ _ _ Hu) as Hb.
      unfold c' in Hu. now rewrite Hb in Hu. }
    assert (Hrest : t ∈ load_from (S n) c' ls <->
      exists k l0, (l :: ls) !! S k = Some l0 /\
        dropna_row (row_of (n + S k) l0,
                    c + count_boundary (take (S k) (l :: ls))) = Some t).
    { assert (Hn : forall k, n + S k = S n + k) by (intros; lia).
      assert (Hc : forall k, c + count_boundary (take (S k) (l :: ls))
                             = c' + count_boundary (take k ls)).
      { intros k. cbn [take]. rewrite count_boundary_cons. unfold c'.
        destruct (boundary l); lia. }
      rewrite IH. split; intros (k & l0 & Hk & Ht); exists k, l0;
        (split; [exact Hk|]).
      - rewrite Hn, Hc. exact Ht.
      - rewrite Hn, Hc in Ht. exact Ht. }
    destruct (dropna_row (row_of n l, c')) as [u|] eqn:Hu.
    + rewrite elem_of_cons, Hrest. split.
      * intros [->|(k & l0 & Hk & Ht)].
        -- exists 0, l. split; [reflexivity|]. simpl.
           rewrite !Nat.add_0_r. now apply Hhere.
        -- exists (S k), l0. auto.
      * intros ([|k] & l0 & Hk & Ht).
        -- left. simpl in Hk. injection Hk as <-. simpl in Ht.
           rewrite !Nat.add_0_r in Ht.
           pose proof (dropna_row_not_boundary _ _ _ _ Ht) as Hb.
           unfold c' in Hu. rewrite Hb in Hu. congruence.
        -- right. exists k, l0. auto.
    + rewrite Hrest. split.
      * intros (k & l0 & Hk & Ht). exists (S k), l0. auto.
      * intros ([|k] & l0 & Hk & Ht).
        -- exfalso. simpl in Hk. injection Hk as <-. simpl in Ht.
           rewrite !Nat.add_0_r in Ht.
           pose proof (dropna_row_not_boundary _ _ _ _ Ht) as Hb.
           unfold c' in Hu. rewrite Hb in Hu. congruence.
        -- exists k, l0. auto.
Qed.

(** ** Grouping by sentence *)

Section GroupBy.
Context {A B : Type} (key : A -> nat) (val : A -> B) (df : list A).

Lemma groupby_keys :
  (groupby key val df).*1 = Numpy.unique le (key <$> df).
Proof.
  unfold groupby.
  induction (Numpy.unique le (key <$> df)) as [|k ks IH]; [reflexivity|].
  rewrite !fmap_cons, IH. reflexivity.
Qed.

Lemma groupby_length :
  length (groupby key val df) = length (Numpy.unique le (key <$> df)).
Proof. unfold groupby. apply length_fmap. Qed.

Lemma elem_of_groupby k s :
  (k, s) ∈ groupby key val df <->
  k ∈ key <$> df /\ s = val <$> filter (fun r => key r = k) df.
Proof.
  unfold groupby. rewrite list_elem_of_fmap. split.
  - intros (k' & Heq & Hk). injection Heq as -> ->.
    rewrite (elem_of_unique le) in Hk. split; [exact Hk|reflexivity].
  - intros [Hk ->]. exists k. split; [reflexivity|].
    rewrite (elem_of_unique le). exact Hk.
Qed.

Lemma groupby_key_elem k :
  k ∈ (groupby key val df).*1 <-> exists r, r ∈ df /\ key r = k.
Proof.
  rewrite groupby_keys, (elem_of_unique le), list_elem_of_fmap.
  split; intros (r & H1 & H2); exists r; auto.
Qed.

(** No group is empty. *)
Lemma groupby_nonempty k s : (k, s) ∈ groupby key val df -> s <> [].
Proof.
  rewrite elem_of_groupby, list_elem_of_fmap.
  intros [(r & -> & Hr) ->] Hnil.
  apply fmap_nil_inv in Hnil.
  assert (Hin : r ∈ filter (fun r' => key r' = key r) df)
    by (apply list_elem_of_filter; auto).
  rewrite Hnil in Hin. now apply elem_of_nil in Hin.
Qed.
End GroupBy.

Lemma train_x_length train : length (Notebook1.train_x train) = length train.
Proof. unfold Notebook1.train_x, fit_transform. simpl. now rewrite !length_fmap. Qed.

Lemma x_train_sentence_rows train :
  (fun r : token * nat => t_sentence r.1) <$> zip train (Notebook1.train_x train)
  = t_sentence <$> train.
Proof.
  transitivity (t_sentence <$> (zip train (Notebook1.train_x train)).*1).
  - now rewrite <- list_fmap_compose.
  - rewrite fst_zip; [reflexivity|]. rewrite train_x_length. lia.
Qed.

Lemma x_train_sentence_keys train :
  (Notebook1.x_train_sentence train).*1
  = Numpy.unique le (t_sentence <$> train).
Proof.
  unfold Notebook1.x_train_sentence.
  now rewrite groupby_keys, x_train_sentence_rows.
Qed.

Lemma x_train_sentence_length train :
  length (Notebook1.x_train_sentence train)
  = length (Numpy.unique le (t_sentence <$> train)).
Proof.
  unfold Notebook1.x_train_sentence.
  now rewrite groupby_length, x_train_sentence_rows.
Qed.

Lemma x_train_seq_Ok train :
  exists batch, Notebook1.x_train_seq train = Ok batch /\
    length batch = length (Notebook1.x_train_sentence train) /\
    Forall (fun row => length row = 100) batch.
Proof.
  unfold Notebook1.x_train_seq. rewrite pad_sequences_eq by lia.
  eexists. split; [reflexivity|]. split; [now rewrite !length_fmap|].
  rewrite Forall_fmap. apply Forall_forall. intros s _. simpl.
  rewrite length_app, length_replicate, length_drop. lia.
Qed.

Lemma count_boundary_app l1 l2 :
  count_boundary (l1 ++ l2) = count_boundary l1 + count_boundary l2.
Proof. unfold count_boundary. now rewrite filter_app, length_app. Qed.

Lemma count_boundary_take k ls :
  count_boundary (take k ls) <= count_boundary ls.
Proof.
  rewrite <- (take_drop k ls) at 2. rewrite count_boundary_app. lia.
Qed.

Lemma boundary_Line0 : boundary Line0 = true.
Proof. reflexivity. Qed.

Lemma load_sentence ls t :
  t ∈ Notebook1.load ls ->
  exists l, ls !! t_index t = Some l /\ boundary l = false /\
            t_sentence t = count_boundary (take (t_index t) ls).
Proof.
  rewrite load_eq, elem_of_load_from. intros (k & l & Hk & Ht).
  pose proof (dropna_row_not_boundary _ _ _ _ Ht) as Hb.
  apply dropna_row_index in Ht as [-> ->]. simpl. eauto.
Qed.

(** C10.  The grouped series has one entry for every sentence number that
    some token carries and for no other number, and no entry holds an
    empty list; the padded array has one row per entry.  So the sentence
    before a leading blank line (number 0) and the sentence between two
    blank lines in a row have no entry and no row. *)
Theorem empty_sentence_has_no_group (ls : list line) :
  let train := Notebook1.load ls in
  let groups := Notebook1.x_train_sentence train in
  (forall k, k ∈ groups.*1 <-> exists t, t ∈ train /\ t_sentence t = k) /\
  NoDup groups.*1 /\
  (forall k s, (k, s) ∈ groups -> s <> []) /\
  (exists batch, Notebook1.x_train_seq train = Ok batch /\
                 length batch = length groups) /\
  (forall rest, ls = Line0 :: rest -> 0 ∉ groups.*1) /\
  (forall pre post, ls = pre ++ Line0 :: Line0 :: post ->
     count_boundary pre + 1 ∉ groups.*1).
Proof.
  intros train groups.
  assert (Hkeys : forall k,
    k ∈ groups.*1 <-> exists t, t ∈ train /\ t_sentence t = k).
  { intros k. unfold groups. rewrite x_train_sentence_keys.
    rewrite (elem_of_unique le), list_elem_of_fmap.
    split; intros (t & H1 & H2); exists t; auto. }
  split; [exact Hkeys|]. split; [|split; [|split; [|split]]].
  - unfold groups. rewrite x_train_sentence_keys. apply (unique_NoDup le).
  - intros k s. apply groupby_nonempty.
  - destruct (x_train_seq_Ok train) as (batch & Hb & Hlen & _). eauto.
  - intros rest -> Hin. apply Hkeys in Hin as (t & Ht & H0).
    apply load_sentence in Ht as (l & Hl & Hb & Hs).
    destruct (t_index t) as [|k].
    + simpl in Hl. injection Hl as <-. discriminate.
    + simpl in Hs. rewrite count_boundary_cons, boundary_Line0 in Hs. lia.
  - intros pre post -> Hin. apply Hkeys in Hin as (t & Ht & Heq).
    apply load_sentence in Ht as (l & Hl & Hb & Hs).
    destruct (decide (t_index t < length pre)) as [Hlt|Hge].
    + rewrite take_app_le in Hs by lia.
      pose proof (count_boundary_take (t_index t) pre). lia.
    + destruct (decide (t_index t < length pre + 2)) as [Hlt|Hge2].
      * rewrite lookup_app_r in Hl by lia.
        destruct (t_index t - length pre) as [|[|j]] eqn:Hj; [| |lia];
          simpl in Hl; injection Hl as <-; discriminate.
      * rewrite take_app_ge in Hs by lia.
        rewrite count_boundary_app in Hs.
        destruct (t_index t - length pre) as [|[|j]] eqn:Hj; [lia|lia|].
        simpl in Hs. rewrite !count_boundary_cons, boundary_Line0 in Hs. lia.
Qed.

Lemma empty_sentence_has_no_group_witness :
  (0 ∉ (Notebook1.x_train_sentence
          (Notebook1.load [Line0; Line4 "EU" "NNP" "I-NP" "I-ORG"])).*1) /\
  (1 ∉ (Notebook1.x_train_sentence
          (Notebook1.load [Line4 "EU" "NNP" "I-NP" "I-ORG"; Line0; Line0;
                           Line4 "Peter" "NNP" "I-NP" "I-PER"])).*1).
Proof.
  split.
  - eapply (empty_sentence_has_no_group
              [Line0; Line4 "EU" "NNP" "I-NP" "I-ORG"]). reflexivity.
  - apply (empty_sentence_has_no_group
             [Line4 "EU" "NNP" "I-NP" "I-ORG"; Line0; Line0;
              Line4 "Peter" "NNP" "I-NP" "I-PER"])
      with (pre := [Line4 "EU" "NNP" "I-NP" "I-ORG"])
           (post := [Line4 "Peter" "NNP" "I-NP" "I-PER"]).
    reflexivity.
Defined.


(** ** Counting sentences *)

Lemma complete_not_blank l : complete l -> l <> Line0.
Proof. intros (a & b & c & d & -> & _). discriminate. Qed.

Lemma parse_field_Some s : s ∉ na_values -> parse_field s = Some s.
Proof. intros Hs. unfold parse_field. case_decide; [contradiction|reflexivity]. Qed.

Lemma str_rsplit_last_Some s : exists t, str_rsplit_last (Some s) = Some t.
Proof.
  unfold str_rsplit_last. simpl.
  destruct (rsplit1_cases s) as [[_ ->]|(p & t & _ & _ & ->)]; simpl; eauto.
Qed.

(** A record line is kept by [dropna], with its four fields. *)
Lemma complete_token n c l :
  complete l ->
  exists t, dropna_row (row_of n l, c) = Some t /\
    t_index t = n /\ t_sentence t = c /\
    fields l = [t_word t; t_POS t; t_chunk t; t_origin_entity t].
Proof.
  intros (a & b & c0 & d & -> & Ha & Hb & Hc & Hd).
  destruct (str_rsplit_last_Some d) as [e He].
  exists (Token n a b c0 d e c). split; [|repeat split].
  unfold dropna_row, row_of, assign_entity, read_line, column. simpl.
  rewrite !parse_field_Some by assumption. simpl.
  unfold str_rsplit_last in He. simpl in He. rewrite He. reflexivity.
Qed.

Lemma complete_boundary l : complete l -> boundary l = false.
Proof.
  intros Hl. destruct (complete_token 0 0 l Hl) as (t & Ht & _).
  eapply dropna_row_not_boundary; eassumption.
Qed.

Lemma well_formed_count ls :
  well_formed ls -> count_boundary ls = count_blank ls.
Proof.
  unfold count_blank. induction 1 as [|l ls Hl Hls IH]; [reflexivity|].
  rewrite count_boundary_cons, filter_cons, IH.
  destruct Hl as [->|Hl].
  - rewrite boundary_Line0. case_decide; [reflexivity|congruence].
  - rewrite (complete_boundary l Hl).
    case_decide as Hb; [|reflexivity]. now apply complete_not_blank in Hl.
Qed.

Lemma load_from_blank n c ls :
  load_from n c (Line0 :: ls) = load_from (S n) (S c) ls.
Proof. reflexivity. Qed.

Lemma load_from_complete n c l ls :
  complete l ->
  exists t, load_from n c (l :: ls) = t :: load_from (S n) c ls /\
            t_sentence t = c.
Proof.
  intros Hl. cbn [load_from]. rewrite (complete_boundary l Hl).
  destruct (complete_token n c l Hl) as (t & -> & _ & Hs & _). eauto.
Qed.

Lemma ends_with_token_from_cons after l ls :
  ends_with_token_from after (l :: ls)
  = ends_with_token_from (bool_decide (l <> Line0)) ls.
Proof.
  unfold ends_with_token_from. rewrite last_cons.
  destruct (last ls); reflexivity.
Qed.

(** Without empty sentences the sentence numbers in use are the numbers
    from [c] on, one per blank line and one more for a last sentence that
    no blank line closes. *)
Lemma load_from_sentences after n c ls k :
  well_formed ls -> no_empty_sentence_from after ls ->
  (k ∈ t_sentence <$> load_from n c ls \/ (after = true /\ k = c)) <->
  c <= k < c + count_blank ls
             + (if ends_with_token_from after ls then 1 else 0).
Proof.
  intros Hwf; revert after n c.
  induction Hwf as [|l ls Hl Hls IH]; intros after n c Hne.
  - simpl. rewrite elem_of_nil. unfold count_blank, ends_with_token_from.
    simpl. destruct after; intuition (try discriminate; lia).
  - rewrite ends_with_token_from_cons. unfold count_blank in *.
    rewrite filter_cons. simpl in Hne. destruct Hl as [->|Hl].
    + case_decide; [|congruence]. destruct Hne as [-> Hne].
      rewrite load_from_blank.
      rewrite bool_decide_eq_false_2 by (intros Hx; now apply Hx).
      specialize (IH false (S n) (S c) Hne). simpl length. 
      split.
      * intros [Hin|[_ ->]]; [|lia].
        assert (S c <= k < S c + length (filter (fun l => l = Line0) ls)
                  + (if ends_with_token_from false ls then 1 else 0))
          by (apply IH; now left). lia.
      * intros Hk. destruct (decide (k = c)) as [->|Hkc]; [now right|].
        left. destruct IH as [_ IH]. destruct IH as [Hin|[Hf _]];
          [lia|exact Hin|discriminate].
    + pose proof (complete_not_blank l Hl) as Hnb.
      case_decide; [contradiction|].
      rewrite bool_decide_eq_true_2 by assumption.
      destruct (load_from_complete n c l ls Hl) as (t & -> & Hs).
      specialize (IH true (S n) c Hne).
      rewrite fmap_cons, elem_of_cons, Hs. rewrite <- IH. tauto.
Qed.

Lemma ends_with_token_from_false ls :
  ends_with_token_from false ls = ends_with_token ls.
Proof. reflexivity. Qed.

(** The sentence numbers of the loaded tokens never decrease. *)
Lemma load_from_sorted n c ls :
  StronglySorted (fun t u => t_sentence t <= t_sentence u) (load_from n c ls).
Proof.
  revert n c; induction ls as [|l ls IH]; intros n c; [constructor|].
  cbn [load_from]. set (c' := if boundary l then S c else c).
  destruct (dropna_row (row_of n l, c')) as [t|] eqn:Ht; [|apply IH].
  constructor; [apply IH|].
  apply dropna_row_index in Ht as [_ ->].
  apply Forall_forall. intros u Hu.
  apply elem_of_load_from in Hu as (k & l0 & _ & Hu).
  apply dropna_row_index in Hu as [_ ->]. lia.
Qed.

(** The count of the sentences of the frame [load] builds from the rows
    [ls]. *)
Lemma load_sentence_count ls :
  well_formed ls -> no_empty_sentence ls ->
  length (Notebook1.x_train_sentence (Notebook1.load ls))
    = count_blank ls + (if ends_with_token ls then 1 else 0).
Proof.
  intros Hwf Hne. rewrite x_train_sentence_length.
  set (m := count_blank ls + (if ends_with_token ls then 1 else 0)).
  rewrite <- (length_seq m 0). apply Permutation_length.
  apply NoDup_Permutation.
  - apply (unique_NoDup le).
  - apply NoDup_seq.
  - intros k. rewrite (elem_of_unique le), elem_of_seq.
    unfold m. rewrite load_eq.
    pose proof (load_from_sentences false 0 0 ls k Hwf Hne) as H.
    rewrite ends_with_token_from_false in H.
    rewrite !Nat.add_0_l in *. split.
    + intros Hin. apply H. now left.
    + intros Hk. apply H in Hk as [?|[? _]]; [assumption|discriminate].
Qed.

(** ** Reading the file *)

(** When [read_csv] accepts the file and the four cells run to the end,
    the frame is the one [load] builds from the rows of the file. *)
Lemma read_csv_Ok text ls :
  parse text = Some (Ok ls) -> read_csv text = Some (Ok (frame ls)).
Proof. intros Hparse. unfold read_csv. now rewrite Hparse. Qed.

Lemma load_file_Ok text ls train :
  parse text = Some (Ok ls) ->
  Notebook1.load_file text = Some (Ok train) ->
  train = Notebook1.load ls.
Proof.
  intros Hparse. unfold Notebook1.load_file.
  rewrite (read_csv_Ok text ls Hparse). cbn [mbind option_bind].
  change (Notebook1.index_sentences (frame ls)) with (Notebook1.load ls).
  destruct (str_accessor (raw_origin_entity <$> frame ls)) as [[[]|e]|];
    cbn [mbind option_bind]; try discriminate.
  destruct (Notebook1.load ls) as [|t train0].
  - now intros [= <-].
  - destruct (column_dtype (raw_word <$> frame ls)) as [[]|];
      try discriminate. now intros [= <-].
Qed.

Lemma frame_lookup ls i l :
  ls !! i = Some l -> frame ls !! i = Some (read_line i l).
Proof. intros Hl. unfold frame. now rewrite list_lookup_imap, Hl. Qed.

(** A column with a value that is plainly text is kept as strings. *)
Lemma column_dtype_object (col : list cell) (s : string) :
  Some s ∈ col -> plain_text s = true -> column_dtype col = Some object_.
Proof.
  intros Hin Hs. unfold column_dtype.
  replace (existsb (fun c => from_option plain_text false c) col) with true;
    [reflexivity|].
  symmetry. apply existsb_exists. exists (Some s).
  split; [now apply list_elem_of_In|exact Hs].
Qed.

(** With a record line that is plainly text, the four cells run to the
    end and leave a frame that is not empty. *)
Lemma load_file_text_record text ls :
  parse text = Some (Ok ls) -> Exists text_record ls ->
  Notebook1.load_file text = Some (Ok (Notebook1.load ls)) /\
  Notebook1.load ls <> [].
Proof.
  intros Hparse Hex.
  apply Exists_exists in Hex as (l & Hl & a & b & c & d & -> & Hc & Ha & Hd).
  apply list_elem_of_lookup_1 in Hl as [i Hi].
  pose proof Hc as (a' & b' & c' & d' & [= <- <- <- <-] & Hna & _ & _ & Hnd).
  assert (Htags : column_dtype (raw_origin_entity <$> frame ls) = Some object_).
  { apply (column_dtype_object _ d); [|exact Hd].
    apply list_elem_of_fmap. exists (read_line i (Line4 a b c d)).
    split; [|eapply list_elem_of_lookup_2, frame_lookup, Hi].
    unfold read_line, column. simpl. now rewrite parse_field_Some. }
  assert (Hwords : column_dtype (raw_word <$> frame ls) = Some object_).
  { apply (column_dtype_object _ a); [|exact Ha].
    apply list_elem_of_fmap. exists (read_line i (Line4 a b c d)).
    split; [|eapply list_elem_of_lookup_2, frame_lookup, Hi].
    unfold read_line, column. simpl. now rewrite parse_field_Some. }
  assert (Hne : Notebook1.load ls <> []).
  { destruct (complete_token i (count_boundary (take i ls)) _ Hc)
      as (t & Ht & _).
    assert (Hin : t ∈ Notebook1.load ls).
    { rewrite load_eq. apply elem_of_load_from. exists i, (Line4 a b c d).
      auto. }
    intros E. rewrite E in Hin. now apply elem_of_nil in Hin. }
  split; [|exact Hne].
  unfold Notebook1.load_file.
  rewrite (read_csv_Ok text ls Hparse). cbn [mbind option_bind].
  change (Notebook1.index_sentences (frame ls)) with (Notebook1.load ls).
  unfold str_accessor. rewrite Htags. cbn [mbind option_bind].
  rewrite Hwords. destruct (Notebook1.load ls); [contradiction|reflexivity].
Qed.


Lemma sample_lines_well_formed : well_formed sample_lines.
Proof.
  unfold sample_lines.
  constructor; [right; record_line|].
  constructor; [right; record_line|].
  constructor; [left; reflexivity|].
  constructor; [right; record_line|].
  constructor.
Defined.


Lemma sample_leading_blank_well_formed : well_formed sample_leading_blank.
Proof.
  constructor; [left; reflexivity|].
  constructor; [right; record_line|constructor].
Qed.

Lemma sample_null_four_fields : four_fields sample_null.
Proof.
  repeat (constructor;
          [first [left; reflexivity | right; reflexivity]|]).
  constructor.
Qed.



(** ** Lines that are not records *)

Lemma train_y_length train :
  length (Notebook1.train_y train) = length train.
Proof.
  unfold Notebook1.train_y, fit_transform. cbn [snd].
  now rewrite !length_fmap.
Qed.

(** The binarizer is fitted on every frame but the empty one. *)
Lemma onehot_encoder_Ok train :
  train <> [] ->
  Notebook1.onehot_encoder train
  = Ok {| lb_classes_ := Numpy.unique le (Notebook1.train_y train) |}.
Proof.
  intros Hne. unfold Notebook1.onehot_encoder, lb_fit.
  destruct (Notebook1.train_y train) as [|y ys] eqn:E; [|reflexivity].
  apply (f_equal length) in E. rewrite train_y_length in E.
  destruct train; [contradiction|discriminate].
Qed.

Lemma onehot_encoder_nil train :
  train = [] -> Notebook1.onehot_encoder train = Raise ValueError.
Proof. intros ->. reflexivity. Qed.

Lemma y_train_tag_onehot_Ok train lb :
  Notebook1.onehot_encoder train = Ok lb ->
  Notebook1.y_train_tag_onehot train
  = Ok ((fun group : nat * list nat => lb_transform lb group.2)
          <$> Notebook1.y_train_tag train).
Proof. intros Hlb. unfold Notebook1.y_train_tag_onehot. now rewrite Hlb. Qed.

Lemma y_train_seq_Ok train :
  train <> [] -> exists batch, Notebook1.y_train_seq train = Ok batch.
Proof.
  intros Hne. unfold Notebook1.y_train_seq.
  rewrite (y_train_tag_onehot_Ok train _ (onehot_encoder_Ok train Hne)).
  cbn [mbind result_bind bind]. rewrite pad_sequences_eq by lia. eauto.
Qed.

(** From a frame that is not empty the cells run to the padded arrays. *)
Lemma preprocess_Ok text train :
  Notebook1.load_file text = Some (Ok train) -> train <> [] ->
  exists out, Notebook1.preprocess text = Some (Ok out).
Proof.
  intros Hload Hne. unfold Notebook1.preprocess. rewrite Hload.
  cbn [mbind option_bind result_bind bind].
  rewrite (onehot_encoder_Ok train Hne).
  destruct (x_train_seq_Ok train) as (xs & -> & _).
  destruct (y_train_seq_Ok train Hne) as (ys & ->).
  cbn [mbind result_bind bind]. eauto.
Qed.

(** The last column of a row of fewer than four fields is NaN. *)
Lemma short_line_column l : length (fields l) < 4 -> column 3 l = None.
Proof. destruct l; simpl; intros Hlen; try reflexivity; lia. Qed.


Lemma sample_short_text_record : Exists text_record sample_short.
Proof.
  apply Exists_cons_hd. do 4 eexists.
  split; [reflexivity|]. split; [record_line|]. split; reflexivity.
Defined.



(** ** The padding value *)

(** In the first notebook the padded positions of the input array hold
    [-1], which is the id of no word, and those of the label array hold
    vectors of zeros. *)
Lemma notebook1_padding_sentinel train :
  train <> [] ->
  exists xs seqs ys,
    Notebook1.x_train_seq train = Ok xs /\
    Notebook1.y_train_tag_onehot train = Ok seqs /\
    Notebook1.y_train_seq train = Ok ys /\
    (forall i k s, Notebook1.x_train_sentence train !! i = Some (k, s) ->
       length s <= 100 ->
       xs !! i = Some (replicate (100 - length s) (-1)%Z ++ (Z.of_nat <$> s))) /\
    (forall id : nat, Z.of_nat id <> (-1)%Z) /\
    (forall i s, seqs !! i = Some s ->
       length s <= 100 ->
       ys !! i
       = Some (replicate (100 - length s)
                 (replicate (sample_width seqs) 0%Z) ++ s)).
Proof.
  intros Hne. unfold Notebook1.x_train_seq, Notebook1.y_train_seq.
  rewrite (y_train_tag_onehot_Ok train _ (onehot_encoder_Ok train Hne)).
  cbn [mbind result_bind bind].
  rewrite !pad_sequences_eq by lia. do 3 eexists.
  split; [reflexivity|]. split; [reflexivity|]. split; [reflexivity|].
  split; [|split].
  - intros i k s Hi Hlen. rewrite !list_lookup_fmap, Hi. simpl.
    rewrite length_fmap. replace (length s - 100) with 0 by lia.
    reflexivity.
  - lia.
  - intros i s Hi Hlen. rewrite list_lookup_fmap, Hi. simpl.
    replace (length s - 100) with 0 by lia. reflexivity.
Qed.

(** In the second notebook they hold [0], and as soon as the frame has a
    token [0] is the id of a word. *)
Lemma notebook2_padding_value train :
  exists xs,
    Notebook2.x_train_seq train = Ok xs /\
    (forall i k s, Notebook2.x_train_sentence train !! i = Some (k, s) ->
       length s <= 60 ->
       xs !! i = Some (replicate (60 - length s) 0%Z ++ (Z.of_nat <$> s))) /\
    (train <> [] ->
     exists w, classes_ (Notebook2.word_encoder train) !! 0 = Some w).
Proof.
  unfold Notebook2.x_train_seq. rewrite pad_sequences_eq by lia.
  eexists. split; [reflexivity|]. split.
  - intros i k s Hi Hlen. rewrite !list_lookup_fmap, Hi. simpl.
    rewrite length_fmap. replace (length s - 60) with 0 by lia.
    reflexivity.
  - intros Hne. destruct train as [|t train]; [contradiction|].
    assert (Hin : t_word t ∈ classes_ (Notebook2.word_encoder (t :: train))).
    { unfold Notebook2.word_encoder. rewrite word_encoder_fit.
      apply fit_classes_elem. rewrite fmap_cons. left. }
    destruct (classes_ (Notebook2.word_encoder (t :: train))) as [|w ws];
      [now apply elem_of_nil in Hin|].
    exists w. reflexivity.
Qed.

(** C2.  In the second notebook [pad_sequences] is called without
    [value]: the padded positions of the input array hold [0], and [0] is
    the id of a word, here of ["China"]. *)
Theorem notebook2_padding_is_a_word_id :
  let train :=
    Notebook2.load [Line4 "China" "NNP" "I-NP" "I-ORG";
                    Line4 "says" "VBZ" "I-VP" "O"] in
  Notebook2.x_train_seq train = Ok [replicate 58 0%Z ++ [0%Z; 1%Z]] /\
  classes_ (Notebook2.word_encoder train) !! 0 = Some "China" /\
  Notebook2.sentence_words train 0 = Ok ["China"; "says"].
Proof. vm_compute. repeat split. Qed.

(** * Further properties of the notebooks *)

(** ** The vocabulary depends on the set of labels only *)

Section UniqueExtensional.
Context {A : Type} (R : relation A) `{!RelDecision R} `{!EqDecision A}.
Context `{!PartialOrder R} `{!Total R}.

(** Two strictly sorted lists with the same elements are equal. *)
Lemma strictly_sorted_ext (l1 l2 : list A) :
  StronglySorted (strict R) l1 -> StronglySorted (strict R) l2 ->
  (forall x, x ∈ l1 <-> x ∈ l2) -> l1 = l2.
Proof.
  intros H1 H2 Hel.
  apply (StronglySorted_unique_strong (strict R)); [|assumption..|].
  - intros x1 x2 _ _ [_ Hn] [Hr _]. contradiction.
  - apply NoDup_Permutation; [now apply (sorted_NoDup R)..|exact Hel].
Qed.

Lemma unique_ext (l1 l2 : list A) :
  (forall x, x ∈ l1 <-> x ∈ l2) -> Numpy.unique R l1 = Numpy.unique R l2.
Proof.
  intros Hel.
  apply strictly_sorted_ext; [apply (unique_sorted R)..|].
  intros x. now rewrite !(elem_of_unique R).
Qed.

Lemma unique_of_sorted (l : list A) :
  StronglySorted (strict R) l -> Numpy.unique R l = l.
Proof.
  intros Hl. apply strictly_sorted_ext; [apply (unique_sorted R)|exact Hl|].
  intros x. apply (elem_of_unique R).
Qed.
End UniqueExtensional.

(** X1.  Fitting is insensitive to the order and to the repetitions of the
    labels: two columns with the same set of labels give the same
    [classes_], hence the same ids, and fitting on [classes_] itself gives
    [classes_] back. *)
Theorem fit_depends_on_label_set (y1 y2 : list string) :
  (forall w, w ∈ y1 <-> w ∈ y2) ->
  fit y1 = fit y2 /\
  (forall w, Numpy.searchsorted String.le (classes_ (fit y1)) w
             = Numpy.searchsorted String.le (classes_ (fit y2)) w) /\
  fit (classes_ (fit y1)) = fit y1.
Proof.
  intros Hel.
  assert (E : fit y1 = fit y2).
  { unfold fit. f_equal. now apply (unique_ext String.le). }
  split; [exact E|]. split; [now rewrite E|].
  unfold fit. simpl. f_equal.
  apply (unique_of_sorted String.le), (unique_sorted String.le).
Qed.

Lemma fit_depends_on_label_set_witness :
  fit ["says"; "China"; "says"; "Taiwan"] = fit ["Taiwan"; "says"; "China"].
Proof.
  apply (fit_depends_on_label_set ["says"; "China"; "says"; "Taiwan"]
                                  ["Taiwan"; "says"; "China"]).
  intros w. rewrite !elem_of_cons, !elem_of_nil. tauto.
Defined.

(** ** Encoding the training split again *)

Lemma train_x_eq train : Notebook1.train_x train = word_id train <$> train.
Proof.
  unfold Notebook1.train_x, fit_transform, word_id. simpl.
  now rewrite <- list_fmap_compose.
Qed.

Lemma train_y_eq train : Notebook1.train_y train = tag_id train <$> train.
Proof.
  unfold Notebook1.train_y, fit_transform, tag_id. simpl.
  now rewrite <- list_fmap_compose.
Qed.

Lemma word_id_lookup train t :
  t ∈ train ->
  classes_ (Notebook1.word_encoder train) !! word_id train t
  = Some (t_word t).
Proof.
  intros Ht. unfold word_id. rewrite word_encoder_fit.
  apply (searchsorted_elem String.le); [apply fit_classes_sorted|].
  apply fit_classes_elem. now apply list_elem_of_fmap_2.
Qed.

Lemma tag_id_lookup train t :
  t ∈ train ->
  classes_ (Notebook1.entity_tag_encoder train) !! tag_id train t
  = Some (t_entity t).
Proof.
  intros Ht. unfold tag_id. rewrite entity_tag_encoder_fit.
  apply (searchsorted_elem String.le); [apply fit_classes_sorted|].
  apply fit_classes_elem. now apply list_elem_of_fmap_2.
Qed.

Lemma encode_word_train train t :
  t ∈ train ->
  Notebook1.encode_word (Notebook1.word_encoder train) (t_word t)
  = word_id train t.
Proof.
  intros Ht. unfold Notebook1.encode_word.
  rewrite (word_map_lookup _ (word_id train t) (t_word t)); [reflexivity| |].
  - rewrite word_encoder_fit. apply fit_classes_NoDup.
  - now apply word_id_lookup.
Qed.

(** X2.  Run on the training frame itself, the two encodings used for the
    test frame give back the training columns: [transform] returns the
    column [y] that [fit_transform] produced and raises nothing, and the
    dictionary look-up with its default returns the column [x]. *)
Theorem training_split_encodes_to_itself (train : list token) :
  Notebook1.test_y train train = Ok (Notebook1.train_y train) /\
  Notebook1.test_x train train = Notebook1.train_x train.
Proof.
  split.
  - unfold Notebook1.test_y, transform. case_decide as Hall.
    + unfold Notebook1.train_y, fit_transform. reflexivity.
    + contradict Hall. rewrite Forall_fmap, Forall_forall. intros t Ht.
      change (t_entity t ∈ classes_ (Notebook1.entity_tag_encoder train)).
      rewrite entity_tag_encoder_fit, fit_classes_elem.
      now apply list_elem_of_fmap_2.
  - unfold Notebook1.test_x. rewrite train_x_eq, <- list_fmap_compose.
    apply Forall_fmap_ext, Forall_forall. intros t Ht.
    now apply encode_word_train.
Qed.

(** ** Decoding ids *)

Lemma inverse_transform_cons enc i ids :
  inverse_transform enc (i :: ids)
  = match classes_ enc !! i with
    | Some w => ws ← inverse_transform enc ids; Ok (w :: ws)
    | None => Raise ValueError
    end.
Proof.
  unfold inverse_transform. cbn [for_each].
  destruct (classes_ enc !! i); reflexivity.
Qed.

(** X3.  [inverse_transform] raises [ValueError] exactly when some id is
    not below the number of classes, and otherwise returns the class at
    every id.  The id given to unseen words is such an id: a word that is
    not in the vocabulary cannot be decoded from its code. *)
Theorem inverse_transform_out_of_range (enc : LabelEncoder) (ids : list nat) :
  (inverse_transform enc ids = Raise ValueError <->
   exists i, i ∈ ids /\ length (classes_ enc) <= i) /\
  ((forall i, i ∈ ids -> i < length (classes_ enc)) ->
   exists ws, inverse_transform enc ids = Ok ws /\
     length ws = length ids /\
     forall j i, ids !! j = Some i -> ws !! j = classes_ enc !! i) /\
  (forall w, w ∉ classes_ enc ->
     inverse_transform enc [Notebook1.encode_word enc w] = Raise ValueError).
Proof.
  assert (Hok : (forall i, i ∈ ids -> i < length (classes_ enc)) ->
    exists ws, inverse_transform enc ids = Ok ws /\
      length ws = length ids /\
      forall j i, ids !! j = Some i -> ws !! j = classes_ enc !! i).
  { induction ids as [|i ids IH]; intros Hlt.
    - exists []. repeat split. intros j i Hj.
      rewrite lookup_nil in Hj. discriminate.
    - destruct IH as (ws & Hws & Hlen & Hlk).
      { intros i' Hi'. apply Hlt. now right. }
      destruct (lookup_lt_is_Some_2 (classes_ enc) i) as [w Hw];
        [apply Hlt; left|].
      exists (w :: ws). rewrite inverse_transform_cons, Hw, Hws.
      split; [reflexivity|]. split; [simpl; now rewrite Hlen|].
      intros [|j] i' Hj; simpl in Hj.
      + injection Hj as <-. now rewrite Hw.
      + now apply Hlk. }
  split; [|split; [exact Hok|]].
  - split.
    + intros Hraise.
      destruct (decide (Forall (fun i => i < length (classes_ enc)) ids))
        as [Hf|Hf].
      * rewrite Forall_forall in Hf. destruct (Hok Hf) as (ws & Hws & _).
        congruence.
      * apply not_Forall_Exists in Hf; [|intros i; apply _].
        apply Exists_exists in Hf as (i & Hi & Hn). exists i.
        split; [exact Hi|]. simpl in Hn. lia.
    + intros (i & Hi & Hge). clear Hok.
      induction ids as [|i0 ids IH]; [now apply elem_of_nil in Hi|].
      rewrite inverse_transform_cons.
      destruct (classes_ enc !! i0) as [w|] eqn:Hw; [|reflexivity].
      apply elem_of_cons in Hi as [->|Hi].
      * apply lookup_lt_Some in Hw. lia.
      * now rewrite (IH Hi).
  - intros w Hw. unfold Notebook1.encode_word.
    rewrite (word_map_absent enc w Hw). simpl.
    rewrite inverse_transform_cons.
    now rewrite (proj2 (lookup_ge_None (classes_ enc) _)) by lia.
Qed.

Lemma inverse_transform_out_of_range_witness :
  inverse_transform (Notebook1.word_encoder sample_train)
    [Notebook1.encode_word (Notebook1.word_encoder sample_train) "Zyzzyx"]
  = Raise ValueError.
Proof.
  apply (inverse_transform_out_of_range
           (Notebook1.word_encoder sample_train) []).
  vm_compute. intros H.
  repeat (apply elem_of_cons in H as [H|H]; [discriminate|]).
  now apply elem_of_nil in H.
Defined.

(** ** The shape of the grouped series *)

Lemma zip_fmap_self {A B} (g : A -> B) (l : list A) :
  zip l (g <$> l) = (fun a => (a, g a)) <$> l.
Proof. induction l as [|a l IH]; [reflexivity|]. simpl. f_equal. exact IH. Qed.

Lemma filter_fmap_pair {A B} (P : A -> Prop) `{!forall a, Decision (P a)}
    (g : A -> B) (l : list A) :
  snd <$> filter (fun r : A * B => P r.1) ((fun a => (a, g a)) <$> l)
  = g <$> filter P l.
Proof.
  induction l as [|a l IH]; [reflexivity|].
  rewrite fmap_cons, !filter_cons. simpl.
  case_decide; [rewrite !fmap_cons, IH|rewrite IH]; reflexivity.
Qed.

(** Grouping a column computed row by row: the group of a key holds the
    column's values on the rows with that key. *)
Lemma groupby_zip_fmap {A B} (key : A -> nat) (g : A -> B) (df : list A) :
  groupby (fun r : A * B => key r.1) snd (zip df (g <$> df))
  = (fun k => (k, g <$> filter (fun a => key a = k) df))
      <$> Numpy.unique le (key <$> df).
Proof.
  unfold groupby. rewrite zip_fmap_self, <- list_fmap_compose.
  change ((fun r : A * B => key r.1) ∘ (fun a => (a, g a))) with key.
  apply Forall_fmap_ext, Forall_forall. intros k _. f_equal.
  exact (@filter_fmap_pair A B (fun a => key a = k) _ g df).
Qed.

Lemma x_train_sentence_eq train :
  Notebook1.x_train_sentence train
  = (fun k => (k, word_id train <$> sentence_tokens train k))
      <$> Numpy.unique le (t_sentence <$> train).
Proof.
  unfold Notebook1.x_train_sentence. rewrite train_x_eq.
  apply groupby_zip_fmap.
Qed.

Lemma y_train_tag_eq train :
  Notebook1.y_train_tag train
  = (fun k => (k, tag_id train <$> sentence_tokens train k))
      <$> Numpy.unique le (t_sentence <$> train).
Proof.
  unfold Notebook1.y_train_tag. rewrite train_y_eq.
  apply groupby_zip_fmap.
Qed.

Lemma sentence_lengths_eq train :
  Notebook1.sentence_lengths train
  = (fun k => (k, length (sentence_tokens train k)))
      <$> Numpy.unique le (t_sentence <$> train).
Proof.
  unfold Notebook1.sentence_lengths, groupby. rewrite <- list_fmap_compose.
  apply Forall_fmap_ext, Forall_forall. intros k _. simpl.
  now rewrite length_fmap.
Qed.

(** *** Groups of a frame sorted by key *)

Section SortedGroups.
Context {A : Type} (key : A -> nat).

Local Abbreviation by_key := (by_key key).

Lemma sorted_filter (P : A -> Prop) `{!forall a, Decision (P a)} df :
  StronglySorted by_key df -> StronglySorted by_key (filter P df).
Proof.
  induction 1 as [|a df Hs IH Ha]; [constructor|].
  rewrite filter_cons. case_decide; [|assumption].
  constructor; [assumption|].
  apply Forall_forall. intros b Hb. apply list_elem_of_filter in Hb as [_ Hb].
  rewrite Forall_forall in Ha. now apply Ha.
Qed.

(** In a frame sorted by key whose keys are at least [k], the rows with
    key [k] come first. *)
Lemma sorted_split k df :
  StronglySorted by_key df -> (forall a, a ∈ df -> k <= key a) ->
  filter (fun a => key a = k) df ++ filter (fun a => key a <> k) df = df.
Proof.
  induction 1 as [|a df Hs IH Ha]; intros Hk; [reflexivity|].
  rewrite !filter_cons. case_decide as Hak.
  - case_decide; [contradiction|]. simpl. f_equal.
    apply IH. intros b Hb. apply Hk. now right.
  - case_decide; [|contradiction].
    assert (Hgt : forall b, b ∈ df -> key b <> k).
    { intros b Hb. rewrite Forall_forall in Ha.
      pose proof (Ha b Hb) as Hab. unfold by_key in Hab.
      pose proof (Hk a (list_elem_of_here a df)). lia. }
    rewrite (filter_none (fun b => key b = k)) by (intros b Hb; now apply Hgt).
    simpl. f_equal.
    rewrite <- (IH (fun b Hb => Hk b (list_elem_of_further b a df Hb))) at 2.
    now rewrite (filter_none (fun b => key b = k))
      by (intros b Hb; now apply Hgt).
Qed.

(** Laid one after the other in key order, the groups of a frame sorted by
    key are the frame. *)
Lemma sorted_groups_concat ks df :
  StronglySorted (strict le) ks -> StronglySorted by_key df ->
  (forall a, a ∈ df -> key a ∈ ks) ->
  concat ((fun k => filter (fun a => key a = k) df) <$> ks) = df.
Proof.
  intros Hks; revert df.
  induction Hks as [|k ks Hks IH Hk]; intros df Hdf Hin.
  - destruct df as [|a df]; [reflexivity|].
    specialize (Hin a (list_elem_of_here a df)). now apply elem_of_nil in Hin.
  - rewrite fmap_cons, concat_cons.
    assert (Hge : forall a, a ∈ df -> k <= key a).
    { intros a Ha. specialize (Hin a Ha).
      apply elem_of_cons in Hin as [->|Hin]; [lia|].
      rewrite Forall_forall in Hk. destruct (Hk _ Hin) as [Hle _]. exact Hle. }
    transitivity (filter (fun a => key a = k) df
                  ++ filter (fun a => key a <> k) df);
      [|now apply sorted_split].
    f_equal. rewrite <- (IH (filter (fun a => key a <> k) df)).
    + f_equal. apply Forall_fmap_ext, Forall_forall. intros k' Hk'.
      rewrite list_filter_filter. apply list_filter_iff. intros a.
      rewrite Forall_forall in Hk. destruct (Hk _ Hk') as [Hle Hn].
      split; [intros ->; split; [reflexivity|]; intros ->; now apply Hn|tauto].
    + now apply sorted_filter.
    + intros a Ha. apply list_elem_of_filter in Ha as [Hne Ha].
      specialize (Hin a Ha). apply elem_of_cons in Hin as [Heq|Hin];
        [contradiction|exact Hin].
Qed.

Lemma groups_concat df :
  StronglySorted by_key df ->
  concat ((fun k => filter (fun a => key a = k) df)
            <$> Numpy.unique le (key <$> df)) = df.
Proof.
  intros Hdf. apply sorted_groups_concat; [apply (unique_sorted le)|exact Hdf|].
  intros a Ha. apply (elem_of_unique le). now apply list_elem_of_fmap_2.
Qed.
End SortedGroups.

Lemma load_sorted_by_sentence ls :
  StronglySorted (by_key t_sentence) (Notebook1.load ls).
Proof. rewrite load_eq. apply load_from_sorted. Qed.

Lemma concat_fmap_fmap {A B C} (g : B -> C) (h : A -> list B) (ks : list A) :
  concat ((fun k => g <$> h k) <$> ks) = g <$> concat (h <$> ks).
Proof.
  induction ks as [|k ks IH]; [reflexivity|].
  rewrite !fmap_cons, !concat_cons, fmap_app. now rewrite IH.
Qed.

(** X4.  Grouping by sentence loses no token and keeps the order of the
    corpus: the sentence sequences of a loaded frame, laid one after the
    other in the order of the sentence numbers, are the column [x], and
    the tag sequences are the column [y]. *)
Theorem grouping_preserves_corpus_order (ls : list line) :
  let train := Notebook1.load ls in
  concat (snd <$> Notebook1.x_train_sentence train) = Notebook1.train_x train /\
  concat (snd <$> Notebook1.y_train_tag train) = Notebook1.train_y train.
Proof.
  intros train.
  pose proof (groups_concat t_sentence train (load_sorted_by_sentence ls))
    as Hcat.
  split.
  - rewrite x_train_sentence_eq, train_x_eq, <- list_fmap_compose.
    change (snd ∘ _) with
      (fun k => word_id train <$> sentence_tokens train k).
    rewrite (concat_fmap_fmap (word_id train) (sentence_tokens train)).
    unfold sentence_tokens. now rewrite Hcat.
  - rewrite y_train_tag_eq, train_y_eq, <- list_fmap_compose.
    change (snd ∘ _) with
      (fun k => tag_id train <$> sentence_tokens train k).
    rewrite (concat_fmap_fmap (tag_id train) (sentence_tokens train)).
    unfold sentence_tokens. now rewrite Hcat.
Qed.

(** ** Sentence lengths *)

Lemma list_sum_length_concat {A} (ls : list (list A)) :
  list_sum (length <$> ls) = length (concat ls).
Proof.
  induction ls as [|l ls IH]; [reflexivity|].
  rewrite fmap_cons, concat_cons, length_app. simpl. now rewrite IH.
Qed.

Lemma sentence_tokens_nonempty train k :
  k ∈ Numpy.unique le (t_sentence <$> train) -> sentence_tokens train k <> [].
Proof.
  rewrite (elem_of_unique le), list_elem_of_fmap. intros (t & -> & Ht) Hnil.
  assert (Hin : t ∈ sentence_tokens train (t_sentence t))
    by (apply list_elem_of_filter; auto).
  rewrite Hnil in Hin. now apply elem_of_nil in Hin.
Qed.

(** X5.  The series of sentence lengths behind the histogram has the same
    sentence numbers as the grouped sentences, gives every sentence the
    number of its tokens, which is at least one, and its counts add up to
    the number of rows of the frame. *)
Theorem sentence_lengths_cover_the_frame (ls : list line) :
  let train := Notebook1.load ls in
  (Notebook1.sentence_lengths train).*1
    = (Notebook1.x_train_sentence train).*1 /\
  (forall k c, (k, c) ∈ Notebook1.sentence_lengths train ->
     c = length (sentence_tokens train k) /\ 1 <= c) /\
  list_sum (snd <$> Notebook1.sentence_lengths train) = length train.
Proof.
  intros train. rewrite sentence_lengths_eq, x_train_sentence_eq.
  split; [|split].
  - rewrite <- !list_fmap_compose. reflexivity.
  - intros k c Hin. apply list_elem_of_fmap in Hin as (k' & [= -> ->] & Hk).
    split; [reflexivity|].
    pose proof (sentence_tokens_nonempty train k' Hk) as Hne.
    destruct (sentence_tokens train k'); [contradiction|simpl; lia].
  - rewrite <- list_fmap_compose.
    change (snd ∘ _) with
      (length ∘ (fun k => filter (fun t => t_sentence t = k) train)).
    rewrite list_fmap_compose, list_sum_length_concat.
    now rewrite (groups_concat t_sentence train (load_sorted_by_sentence ls)).
Qed.

(** ** Reading a sentence back *)

Lemma list_find_key {B} (g : nat -> B) (ks : list nat) (k : nat) :
  k ∈ ks ->
  exists i, list_find (fun s : nat * B => s.1 = k) ((fun k' => (k', g k')) <$> ks)
            = Some (i, (k, g k)).
Proof.
  intros Hk.
  destruct (list_find_elem_of (fun s : nat * B => s.1 = k)
              ((fun k' => (k', g k')) <$> ks) (k, g k)) as [[i s] Hfind].
  - now apply (list_elem_of_fmap_2 (fun k' => (k', g k'))).
  - reflexivity.
  - exists i. rewrite Hfind. do 2 f_equal.
    apply list_find_Some in Hfind as (Hi & Hs & _).
    apply list_elem_of_lookup_2, list_elem_of_fmap in Hi as (k' & -> & _).
    simpl in Hs. now subst k'.
Qed.

(** X6.  In the second notebook, decoding the sentence numbered [k] gives
    the words of the tokens of that sentence in corpus order; asking for a
    number that no token carries raises [KeyError]. *)
Theorem sentence_words_round_trip (train : list token) (k : nat) :
  ((exists t, t ∈ train /\ t_sentence t = k) ->
   Notebook2.sentence_words train k
   = Ok (t_word <$> sentence_tokens train k)) /\
  ((forall t, t ∈ train -> t_sentence t <> k) ->
   Notebook2.sentence_words train k = Raise KeyError).
Proof.
  unfold Notebook2.sentence_words, Notebook2.x_train_sentence,
    Notebook2.word_encoder.
  rewrite x_train_sentence_eq. split.
  - intros (t & Ht & Hk).
    destruct (list_find_key (fun k' => word_id train <$> sentence_tokens train k')
                (Numpy.unique le (t_sentence <$> train)) k) as [i ->].
    { apply (elem_of_unique le). subst k. now apply list_elem_of_fmap_2. }
    cbn [snd].
    replace (word_id train <$> sentence_tokens train k)
      with (Numpy.searchsorted String.le
              (classes_ (Notebook1.word_encoder train))
              <$> (t_word <$> sentence_tokens train k))
      by (now rewrite <- list_fmap_compose).
    apply inverse_transform_searchsorted.
    + rewrite word_encoder_fit. apply fit_classes_sorted.
    + intros w Hw. rewrite word_encoder_fit, fit_classes_elem.
      apply list_elem_of_fmap in Hw as (t' & -> & Ht').
      apply list_elem_of_filter in Ht' as [_ Ht'].
      now apply list_elem_of_fmap_2.
  - intros Hno.
    rewrite (proj2 (list_find_None _ _)); [reflexivity|].
    apply Forall_forall. intros s Hs Hk.
    apply list_elem_of_fmap in Hs as (k' & -> & Hk'). simpl in Hk. subst k'.
    apply (elem_of_unique le), list_elem_of_fmap in Hk' as (t & Ht1 & Ht2).
    now apply (Hno t Ht2).
Qed.

Lemma sentence_words_round_trip_witness :
  Notebook2.sentence_words sample_train 1 = Ok ["Peter"; "says"] /\
  Notebook2.sentence_words sample_train 7 = Raise KeyError.
Proof.
  split.
  - apply (sentence_words_round_trip sample_train 1).
    eexists. split; [vm_compute; do 3 right; left|reflexivity].
  - apply (sentence_words_round_trip sample_train 7).
    vm_compute. intros t Ht.
    repeat (apply elem_of_cons in Ht as [->|Ht]; [discriminate|]).
    now apply elem_of_nil in Ht.
Defined.

(** ** Indicator rows of the tags *)

Lemma seq_strictly_sorted a n : StronglySorted (strict le) (seq a n).
Proof.
  revert a; induction n as [|n IH]; intros a; [constructor|].
  simpl. constructor; [apply IH|].
  apply Forall_forall. intros k Hk. apply elem_of_seq in Hk.
  split; lia.
Qed.

Lemma tag_id_range train i :
  i ∈ Notebook1.train_y train <->
  i < length (classes_ (Notebook1.entity_tag_encoder train)).
Proof.
  rewrite train_y_eq, list_elem_of_fmap. split.
  - intros (t & -> & Ht). eapply lookup_lt_Some. now apply tag_id_lookup.
  - intros Hi. apply lookup_lt_is_Some_2 in Hi as [w Hw].
    assert (Hin : w ∈ t_entity <$> train).
    { rewrite <- fit_classes_elem, <- entity_tag_encoder_fit.
      eapply list_elem_of_lookup_2; eassumption. }
    apply list_elem_of_fmap in Hin as (t & -> & Ht). exists t.
    split; [|exact Ht].
    eapply NoDup_lookup; [|exact Hw|now apply tag_id_lookup].
    rewrite entity_tag_encoder_fit. apply fit_classes_NoDup.
Qed.

Lemma onehot_encoder_classes train lb :
  Notebook1.onehot_encoder train = Ok lb ->
  lb_classes_ lb
  = seq 0 (length (classes_ (Notebook1.entity_tag_encoder train))).
Proof.
  intros Hlb.
  assert (Hne : train <> []) by (intros ->; discriminate).
  rewrite (onehot_encoder_Ok train Hne) in Hlb. injection Hlb as <-.
  cbn [lb_classes_].
  apply (strictly_sorted_ext le);
    [apply (unique_sorted le)|apply seq_strictly_sorted|].
  intros i. rewrite (elem_of_unique le), tag_id_range, elem_of_seq. lia.
Qed.

Lemma one_hot_lookup K y j :
  j < K -> one_hot K y !! j = Some (if decide (y = j) then 1%Z else 0%Z).
Proof.
  intros Hj. unfold one_hot.
  now rewrite list_lookup_fmap, lookup_seq_lt by assumption.
Qed.

(** X7.  On an empty frame the fit of the binarizer raises [ValueError].
    On any other frame it is fitted on the tag ids, so its classes are
    [0..K-1] in order, [K] being the number of distinct tags.  With three
    or more tags every row of the encoded sentences has [K] entries, a [1]
    at the position of the tag id and [0] elsewhere.  With exactly two tags
    the rows have a single entry, which tells the second tag from the
    first, and with a single tag every row is [[0]]. *)
Theorem onehot_rows (train : list token) :
  let K := length (classes_ (Notebook1.entity_tag_encoder train)) in
  (train = [] ->
   Notebook1.onehot_encoder train = Raise ValueError /\
   Notebook1.y_train_tag_onehot train = Raise ValueError) /\
  (train <> [] ->
   exists lb, Notebook1.onehot_encoder train = Ok lb /\
     lb_classes_ lb = seq 0 K /\
     1 <= K /\
     (3 <= K ->
      Notebook1.y_train_tag_onehot train
      = Ok ((fun g : nat * list nat => one_hot K <$> g.2)
              <$> Notebook1.y_train_tag train)) /\
     (K = 2 ->
      Notebook1.y_train_tag_onehot train
      = Ok ((fun g : nat * list nat =>
               (fun y => [if decide (y = 1) then 1%Z else 0%Z]) <$> g.2)
              <$> Notebook1.y_train_tag train)) /\
     (K = 1 ->
      Notebook1.y_train_tag_onehot train
      = Ok ((fun g : nat * list nat => (fun _ => [0%Z]) <$> g.2)
              <$> Notebook1.y_train_tag train))) /\
  (forall y j, j < K ->
     one_hot K y !! j = Some (if decide (y = j) then 1%Z else 0%Z)) /\
  (forall y, length (one_hot K y) = K).
Proof.
  intros K. split; [|split; [|split]].
  - intros ->. split; reflexivity.
  - intros Hne. pose proof (onehot_encoder_Ok train Hne) as Hlb.
    eexists. split; [exact Hlb|].
    pose proof (onehot_encoder_classes train _ Hlb) as Hcl. fold K in Hcl.
    split; [exact Hcl|].
    assert (HK : 1 <= K).
    { destruct train as [|t train]; [contradiction|].
      assert (Hin : t_entity t
                    ∈ classes_ (Notebook1.entity_tag_encoder (t :: train))).
      { rewrite entity_tag_encoder_fit. apply fit_classes_elem.
        rewrite fmap_cons. left. }
      unfold K.
      destruct (classes_ (Notebook1.entity_tag_encoder (t :: train)));
        [now apply elem_of_nil in Hin|simpl; lia]. }
    split; [exact HK|].
    rewrite (y_train_tag_onehot_Ok train _ Hlb).
    unfold lb_transform. rewrite Hcl.
    split; [|split].
    + intros H3. destruct K as [|[|[|K']]]; [lia..|]. reflexivity.
    + intros ->. reflexivity.
    + intros ->. reflexivity.
  - intros y j Hj. now apply one_hot_lookup.
  - intros y. unfold one_hot. now rewrite length_fmap, length_seq.
Qed.

Lemma onehot_rows_witness :
  Notebook1.y_train_tag_onehot sample_train
  = Ok [[one_hot 4 2; one_hot 4 1; one_hot 4 0]; [one_hot 4 3; one_hot 4 1]].
Proof.
  destruct (onehot_rows sample_train) as (_ & H & _).
  destruct H as (lb & _ & _ & _ & H3 & _); [discriminate|].
  rewrite H3; [reflexivity|]. vm_compute. lia.
Defined.

(** ** The arrays handed to the model *)

Lemma lb_transform_width lb y :
  Forall (fun v => length v = label_width lb) (lb_transform lb y).
Proof.
  unfold lb_transform, label_width.
  destruct (lb_classes_ lb) as [|c0 [|c1 [|c2 cs]]];
    rewrite Forall_fmap; apply Forall_forall; intros v _; simpl;
    try reflexivity.
  now rewrite length_fmap.
Qed.

Lemma sample_width_uniform {A} (w : nat) (seqs : list (list (list A))) :
  Forall (fun s => s <> []) seqs ->
  Forall (Forall (fun v => length v = w)) seqs ->
  seqs <> [] -> sample_width seqs = w.
Proof.
  intros Hne Hw Hseqs. destruct seqs as [|s seqs]; [contradiction|].
  apply Forall_cons in Hne as [Hs _]. apply Forall_cons in Hw as [Hv _].
  destruct s as [|v s]; [contradiction|].
  simpl. now apply Forall_cons in Hv as [Hv _].
Qed.

Lemma y_train_tag_onehot_eq train lb :
  Notebook1.onehot_encoder train = Ok lb ->
  Notebook1.y_train_tag_onehot train
  = Ok ((fun k => lb_transform lb (tag_id train <$> sentence_tokens train k))
          <$> Numpy.unique le (t_sentence <$> train)).
Proof.
  intros Hlb. rewrite (y_train_tag_onehot_Ok train lb Hlb).
  now rewrite y_train_tag_eq, <- list_fmap_compose.
Qed.

Lemma lb_transform_length lb y : length (lb_transform lb y) = length y.
Proof.
  unfold lb_transform.
  destruct (lb_classes_ lb) as [|c0 [|c1 [|c2 cs]]]; apply length_fmap.
Qed.

(** X8.  The input and label arrays describe the same sentences: the two
    grouped series have the same sentence numbers and, sentence by
    sentence, the same length.  On an empty frame the label array is not
    built: the fit of the binarizer raises [ValueError].  On any other
    frame both padded arrays are produced without error, with one row per
    sentence and 100 positions per row, and all label vectors, padding
    included, have one width. *)
Theorem model_arrays_aligned (train : list token) :
  (Notebook1.x_train_sentence train).*1 = (Notebook1.y_train_tag train).*1 /\
  (length ∘ snd) <$> Notebook1.x_train_sentence train
    = (length ∘ snd) <$> Notebook1.y_train_tag train /\
  (train = [] -> Notebook1.y_train_seq train = Raise ValueError) /\
  (train <> [] ->
   exists xs ys W,
     Notebook1.x_train_seq train = Ok xs /\
     Notebook1.y_train_seq train = Ok ys /\
     length xs = length (Notebook1.x_train_sentence train) /\
     length ys = length xs /\
     Forall (fun row => length row = 100) xs /\
     Forall (fun row => length row = 100) ys /\
     Forall (Forall (fun v => length v = W)) ys).
Proof.
  split; [|split; [|split]].
  - rewrite x_train_sentence_eq, y_train_tag_eq, <- !list_fmap_compose.
    reflexivity.
  - rewrite x_train_sentence_eq, y_train_tag_eq, <- !list_fmap_compose.
    apply Forall_fmap_ext, Forall_forall. intros k _. simpl.
    now rewrite !length_fmap.
  - intros ->. reflexivity.
  - intros Hne0. pose proof (onehot_encoder_Ok train Hne0) as Hlb.
    set (lb := {| lb_classes_ := Numpy.unique le (Notebook1.train_y train) |})
      in Hlb.
    pose proof (y_train_tag_onehot_eq train lb Hlb) as Hseqs.
    set (seqs := (fun k => lb_transform lb
                             (tag_id train <$> sentence_tokens train k))
                   <$> Numpy.unique le (t_sentence <$> train)) in Hseqs.
    destruct (x_train_seq_Ok train) as (xs & Hxs & Hlen & H100).
    exists xs. unfold Notebook1.y_train_seq. rewrite Hseqs.
    cbn [mbind result_bind bind].
    rewrite pad_sequences_eq by lia. eexists.
    exists (label_width lb).
    split; [exact Hxs|]. split; [reflexivity|]. split; [exact Hlen|].
    split; [|split; [exact H100|split]].
    + rewrite Hlen, length_fmap, x_train_sentence_eq.
      unfold seqs. now rewrite !length_fmap.
    + rewrite Forall_fmap. apply Forall_forall. intros s _. simpl.
      rewrite length_app, length_replicate, length_drop. lia.
    + assert (Hrows : Forall (Forall (fun v => length v = label_width lb))
                        seqs).
      { unfold seqs. rewrite Forall_fmap.
        apply Forall_forall. intros k _. apply lb_transform_width. }
      assert (Hne : Forall (fun s => s <> []) seqs).
      { unfold seqs. rewrite Forall_fmap.
        apply Forall_forall. intros k Hk. simpl. intros Hnil.
        apply (f_equal length) in Hnil.
        rewrite lb_transform_length, length_fmap in Hnil. simpl in Hnil.
        apply (sentence_tokens_nonempty train k Hk).
        now apply nil_length_inv. }
      rewrite Forall_fmap. apply Forall_forall. intros s Hs. simpl.
      apply Forall_app. split.
      * apply Forall_replicate. rewrite length_replicate.
        apply sample_width_uniform; [exact Hne|exact Hrows|].
        intros Hnil. rewrite Hnil in Hs. now apply elem_of_nil in Hs.
      * rewrite Forall_forall in Hrows. specialize (Hrows s Hs).
        rewrite <- (take_drop (length s - 100) s) in Hrows.
        now apply Forall_app in Hrows as [_ Hrows].
Qed.

(** X9.  Every entry of the padded input array is either the padding
    value [-1] or the id of a word of the vocabulary, a number from [0] to
    [V - 1]; the out-of-vocabulary id [V] does not occur in it. *)
Theorem input_array_entries (train : list token) :
  exists xs, Notebook1.x_train_seq train = Ok xs /\
    forall row e, row ∈ xs -> e ∈ row ->
      e = (-1)%Z \/
      (0 <= e < Z.of_nat (length (classes_ (Notebook1.word_encoder train))))%Z.
Proof.
  unfold Notebook1.x_train_seq. rewrite pad_sequences_eq by lia.
  eexists. split; [reflexivity|]. intros row e Hrow He.
  apply list_elem_of_fmap in Hrow as (s & -> & Hs).
  apply elem_of_app in He as [He|He].
  - left. now apply elem_of_replicate_inv in He.
  - right.
    assert (He' : e ∈ s).
    { rewrite <- (take_drop (length s - 100) s). apply elem_of_app. now right. }
    rewrite x_train_sentence_eq, <- list_fmap_compose in Hs.
    apply list_elem_of_fmap in Hs as (k & -> & _). simpl in He'.
    apply list_elem_of_fmap in He' as (i & -> & Hi).
    apply list_elem_of_fmap in Hi as (t & -> & Ht).
    apply list_elem_of_filter in Ht as [_ Ht].
    pose proof (lookup_lt_Some _ _ _ (word_id_lookup train t Ht)). lia.
Qed.

(** ** Which lines become tokens *)

Lemma parse_field_Some_inv s s' :
  parse_field s = Some s' -> s' = s /\ s ∉ na_values.
Proof.
  unfold parse_field. case_decide; [discriminate|].
  intros [= <-]. split; [reflexivity|assumption].
Qed.

Lemma parse_field_None s : parse_field s = None <-> s ∈ na_values.
Proof.
  unfold parse_field. case_decide; split; try discriminate; tauto.
Qed.

Lemma dropna_row_complete n l c t :
  dropna_row (row_of n l, c) = Some t ->
  complete l /\ fields l = [t_word t; t_POS t; t_chunk t; t_origin_entity t].
Proof.
  intros Ht.
  apply dropna_row_Some in Ht as (_ & _ & H0 & H1 & H2 & H3 & _).
  destruct l as [|a|a b|a b c0|a b c0 d];
    try (unfold column in H3; simpl in H3; discriminate).
  unfold column in *. simpl in *.
  apply parse_field_Some_inv in H0 as [-> Ha], H1 as [-> Hb],
    H2 as [-> Hc], H3 as [-> Hd].
  split; [|reflexivity]. exists a, b, c0, d. auto.
Qed.

Lemma load_from_index_sorted n c ls :
  StronglySorted (fun t u => t_index t < t_index u) (load_from n c ls).
Proof.
  revert n c; induction ls as [|l ls IH]; intros n c; [constructor|].
  cbn [load_from]. set (c' := if boundary l then S c else c).
  destruct (dropna_row (row_of n l, c')) as [t|] eqn:Ht; [|apply IH].
  constructor; [apply IH|].
  apply dropna_row_index in Ht as [-> _].
  apply Forall_forall. intros u Hu.
  apply elem_of_load_from in Hu as (k & l0 & _ & Hu).
  apply dropna_row_index in Hu as [-> _]. lia.
Qed.



(** ** What moves the sentence counter *)

Lemma boundary_all_na l :
  boundary l = true <-> Forall (fun f => f ∈ na_values) (fields l).
Proof.
  unfold boundary, isnull_all, row_of, assign_entity, read_line, column.
  cbn [word POS chunk origin_entity entity raw_word raw_POS raw_chunk
       raw_origin_entity].
  rewrite bool_decide_eq_true.
  assert (Hent : forall c : option string,
            str_rsplit_last c = None <-> c = None).
  { intros [s|]; [|tauto].
    destruct (str_rsplit_last_Some s) as [t ->]. split; discriminate. }
  rewrite Hent, !parse_field_None.
  destruct l as [|a|a b|a b c|a b c d]; simpl;
    rewrite ?Forall_cons, ?Forall_nil;
    assert ("" ∈ na_values) by (vm_compute; left); tauto.
Qed.

(** X11.  The sentence counter moves on every line that is read as a row
    of NaN, that is, on every line all of whose fields are NaN markers: on
    blank lines, but also on a line such as [NA NA NA NA].  The sentence
    number of a token is the number of such lines before it. *)
Theorem sentence_counter_counts_nan_rows (ls : list line) :
  (forall l, boundary l = true <->
             Forall (fun f => f ∈ na_values) (fields l)) /\
  (forall t, t ∈ Notebook1.load ls ->
     t_sentence t = count_boundary (take (t_index t) ls)) /\
  (forall t u, t ∈ Notebook1.load ls -> u ∈ Notebook1.load ls ->
     t_index t <= t_index u -> t_sentence t <= t_sentence u).
Proof.
  split; [exact boundary_all_na|]. split.
  - intros t Ht. now apply load_sentence in Ht as (l & _ & _ & Hs).
  - intros t u Ht Hu Hle.
    apply load_sentence in Ht as (_ & _ & _ & ->).
    apply load_sentence in Hu as (_ & _ & _ & ->).
    replace (take (t_index t) ls)
      with (take (t_index t) (take (t_index u) ls))
      by (rewrite take_take; f_equal; lia).
    apply count_boundary_take.
Qed.

(** ** Tags in the vocabulary *)

(** X12.  No [B-] or [I-] prefix reaches the tag vocabulary: every class of
    the fitted tag encoder is free of hyphens and is the part after the
    last hyphen of the raw tag of some token of the frame. *)
Theorem tag_classes_have_no_prefix (ls : list line) (c : string) :
  c ∈ classes_ (Notebook1.entity_tag_encoder (Notebook1.load ls)) ->
  hyphen_free c /\
  exists t, t ∈ Notebook1.load ls /\ t_entity t = c /\
    str_rsplit_last (Some (t_origin_entity t)) = Some c.
Proof.
  rewrite entity_tag_encoder_fit, fit_classes_elem, list_elem_of_fmap.
  intros (t & -> & Ht).
  assert (Hsplit : str_rsplit_last (Some (t_origin_entity t))
                   = Some (t_entity t)).
  { rewrite load_eq in Ht. apply elem_of_load_from in Ht as (k & l & _ & Hd).
    apply dropna_row_Some in Hd as (_ & _ & _ & _ & _ & Ho & He).
    now rewrite Ho in He. }
  split; [|eauto].
  unfold str_rsplit_last in Hsplit. simpl in Hsplit.
  destruct (rsplit1_cases (t_origin_entity t))
    as [[Hfree E]|(p & e & _ & Hfree & E)];
    rewrite E in Hsplit; simpl in Hsplit; injection Hsplit as <-; exact Hfree.
Qed.

Lemma tag_classes_have_no_prefix_witness :
  hyphen_free "ORG" /\
  exists t, t ∈ Notebook1.load sample_lines /\ t_entity t = "ORG" /\
    str_rsplit_last (Some (t_origin_entity t)) = Some "ORG".
Proof.
  apply (tag_classes_have_no_prefix sample_lines "ORG").
  vm_compute. right. left.
Defined.


(** ** Unseen words and the embedding matrix *)

(** X13.  Every id the test frame receives is a row index of the embedding
    matrix: it is at most [V], the matrix has a row of 50 entries for it,
    and it is [V] exactly for the words that do not occur in the training
    frame, whose row is the zero row. *)
Theorem test_ids_index_the_embedding_matrix {F} (zero : F)
    (GloVe : list (cell * list F)) (train test : list token) :
  let enc := Notebook1.word_encoder train in
  let V := length (classes_ enc) in
  let M := Notebook1.embedding_matrix zero GloVe enc in
  length (Notebook1.test_x train test) = length test /\
  forall i t, test !! i = Some t ->
    exists x row,
      Notebook1.test_x train test !! i = Some x /\ x <= V /\
      (x = V <-> t_word t ∉ t_word <$> train) /\
      M !! x = Some row /\ length row = 50 /\
      (x = V -> row = replicate 50 zero).
Proof.
  intros enc V M. unfold Notebook1.test_x.
  split; [now rewrite !length_fmap|]. intros i t Hi.
  rewrite !list_lookup_fmap, Hi. simpl. fold enc.
  set (x := Notebook1.encode_word enc (t_word t)).
  assert (HlenM : length M = V + 1).
  { unfold M. rewrite embedding_matrix_loop, embedding_loop_length.
    apply length_replicate. }
  assert (HwM : Forall (fun r => length r = 50) M).
  { unfold M. rewrite embedding_matrix_loop.
    apply embedding_loop_width, Forall_replicate, length_replicate. }
  assert (Hx : x <= V /\ (x = V <-> t_word t ∉ t_word <$> train)).
  { unfold x, Notebook1.encode_word.
    destruct (decide (t_word t ∈ t_word <$> train)) as [Hin|Hnin].
    - assert (Hcl : t_word t ∈ classes_ enc)
        by (unfold enc; now rewrite word_encoder_fit, fit_classes_elem).
      apply list_elem_of_lookup_1 in Hcl as [k Hk].
      rewrite (word_map_lookup enc k (t_word t)); [|unfold enc|exact Hk].
      + apply lookup_lt_Some in Hk. fold V in Hk. simpl.
        split; [lia|]. split; [lia|contradiction].
      + rewrite word_encoder_fit. apply fit_classes_NoDup.
    - rewrite word_map_absent.
      + simpl. split; [reflexivity|]. split; [intros _; exact Hnin|reflexivity].
      + unfold enc. now rewrite word_encoder_fit, fit_classes_elem. }
  destruct Hx as [Hle Hiff].
  destruct (lookup_lt_is_Some_2 M x) as [row Hrow]; [lia|].
  exists x, row. split; [reflexivity|]. split; [exact Hle|].
  split; [exact Hiff|]. split; [exact Hrow|]. split.
  - rewrite Forall_forall in HwM. apply HwM.
    eapply list_elem_of_lookup_2; eassumption.
  - intros HxV. rewrite HxV in Hrow. unfold M, V in Hrow.
    rewrite embedding_matrix_loop in Hrow.
    rewrite embedding_loop_outside in Hrow by (right; simpl; lia).
    unfold Numpy.zeros in Hrow.
    rewrite lookup_replicate_2 in Hrow by lia.
    injection Hrow as <-. reflexivity.
Qed.

(** X14.  In the loop that fills the embedding matrix a shape error is
    swallowed like a missing key: the row of a word that labels several
    rows of the table, or whose only row has neither 50 entries nor one,
    stays the zero row, while a row with a single entry is spread over
    the 50 positions. *)
Theorem embedding_matrix_shape_errors {F} (zero : F)
    (GloVe : list (cell * list F)) (enc : LabelEncoder) (i : nat)
    (w : string) :
  classes_ enc !! i = Some w ->
  let M := Notebook1.embedding_matrix zero GloVe enc in
  (2 <= length (filter (fun r : cell * list F => r.1 = Some w) GloVe) ->
   M !! i = Some (replicate 50 zero)) /\
  (forall v, present_once GloVe w v -> length v <> 50 -> length v <> 1 ->
     M !! i = Some (replicate 50 zero)) /\
  (forall c, present_once GloVe w [c] -> M !! i = Some (replicate 50 c)).
Proof.
  intros Hw M.
  pose proof (lookup_lt_Some _ _ _ Hw) as Hlt.
  assert (HM : M !! i = match new_row GloVe w with
                        | Some r => Some r
                        | None => Some (replicate 50 zero)
                        end).
  { unfold M. rewrite embedding_matrix_loop, <- (Nat.add_0_l i).
    rewrite (embedding_loop_row _ _ _ _ _ _ Hw)
      by (unfold Numpy.zeros; rewrite length_replicate; simpl; lia).
    destruct (new_row GloVe w); [reflexivity|].
    unfold Numpy.zeros. apply lookup_replicate_2. simpl. lia. }
  rewrite HM. unfold new_row, loc, present_once.
  split; [|split].
  - intros Hlen.
    destruct (filter (fun r : cell * list F => r.1 = Some w) GloVe)
      as [|r0 [|r1 rs]]; simpl in Hlen; [lia|lia|reflexivity].
  - intros v -> H50 H1. simpl. case_decide; [contradiction|].
    destruct v as [|c [|c' v]]; [reflexivity|simpl in H1; lia|reflexivity].
  - intros c ->. reflexivity.
Qed.

Lemma embedding_matrix_shape_errors_witness :
  Notebook1.embedding_matrix 0%Z
    [(Some "says", [1%Z; 2%Z]); (Some "says", [3%Z; 4%Z])]
    (Notebook1.word_encoder sample_train) !! 3
  = Some (replicate 50 0%Z).
Proof.
  destruct (embedding_matrix_shape_errors 0%Z
              [(Some "says", [1%Z; 2%Z]); (Some "says", [3%Z; 4%Z])]
              (Notebook1.word_encoder sample_train) 3 "says")
    as (Hmany & _); [reflexivity|].
  apply Hmany. vm_compute. lia.
Defined.

(** ** Padding twice *)

(** X15.  Padding is idempotent: a batch that [pad_sequences] returned for
    a target length of at least one is returned unchanged when it is padded
    again to the same length, whatever the filling value of the second
    call. *)
Theorem padding_is_idempotent {A} (seqs batch : list (list A)) (L : nat)
    (fill fill' : A) :
  0 < L ->
  pad_sequences seqs L fill = Ok batch ->
  pad_sequences batch L fill' = Ok batch.
Proof.
  intros HL. rewrite !pad_sequences_eq by assumption. intros [= <-].
  f_equal. rewrite <- list_fmap_compose.
  apply Forall_fmap_ext, Forall_forall. intros s _. simpl.
  rewrite length_app, length_replicate, length_drop.
  replace (L - length s + (length s - (length s - L)) - L) with 0 by lia.
  replace (L - (L - length s + (length s - (length s - L)))) with 0 by lia.
  reflexivity.
Qed.

Lemma padding_is_idempotent_witness :
  pad_sequences [[0; 1; 2; 3]; [0; 0; 0; 4]; [6; 7; 8; 9]] 4 5
  = Ok [[0; 1; 2; 3]; [0; 0; 0; 4]; [6; 7; 8; 9]].
Proof.
  apply (padding_is_idempotent [[1; 2; 3]; [4]; [5; 6; 7; 8; 9]] _ 4 0 5);
    [lia|reflexivity].
Defined.

(** * Reading the file: the tokenizer and the errors of the first cells *)

(** ** Lines without quotation marks *)

Lemma append_empty_l (t : string) : String.append "" t = t.
Proof. reflexivity. Qed.

Lemma append_empty_r (s : string) : String.append s "" = s.
Proof.
  induction s as [|c s IH]; [reflexivity|].
  change (String c (String.append s "") = String c s). now f_equal.
Qed.

Lemma append_append (s1 s2 s3 : string) :
  String.append (String.append s1 s2) s3
  = String.append s1 (String.append s2 s3).
Proof.
  induction s1 as [|c s1 IH]; [reflexivity|].
  change (String c (String.append (String.append s1 s2) s3)
          = String c (String.append s1 (String.append s2 s3))).
  now f_equal.
Qed.

Lemma rev_app_append (s1 s2 : string) :
  String.rev_app s1 s2 = String.append (String.rev s1) s2.
Proof.
  unfold String.rev. revert s2.
  induction s1 as [|c s1 IH]; intros s2; simpl; [reflexivity|].
  rewrite (IH (String c s2)), (IH (String c "")), append_append.
  reflexivity.
Qed.

Lemma rev_String c (s : string) :
  String.rev (String c s) = String.append (String.rev s) (String c "").
Proof. unfold String.rev at 1. simpl. apply rev_app_append. Qed.

Lemma cut_cons (s : string) : exists f fs, cut s = f :: fs.
Proof.
  induction s as [|c s (f & fs & IH)]; simpl; [eauto|].
  destruct (Ascii.eqb c sep); [eauto|]. rewrite IH. eauto.
Qed.

(** At the start of a field of a line without quotation marks the
    tokenizer goes on as inside an empty field. *)
Lemma tokenize_start_field (s rest fld : string) row rows :
  plain_line s ->
  tokenize_bytes START_FIELD fld row rows
    (String.append s (String newline rest))
  = tokenize_bytes IN_FIELD "" row rows
      (String.append s (String newline rest)).
Proof.
  destruct s as [|c s]; [reflexivity|]. intros (Hq & Hn & _).
  rewrite append_String. cbn [tokenize_bytes].
  apply eqb_neq in Hq, Hn. rewrite Hq, Hn. reflexivity.
Qed.

(** Inside a field the tokenizer cuts the rest of such a line at every
    space, and the line feed ends the row. *)
Lemma tokenize_in_field (s rest : string) :
  plain_line s -> forall field row rows,
  exists f fs, cut s = f :: fs /\
    tokenize_bytes IN_FIELD field row rows
      (String.append s (String newline rest))
    = tokenize_bytes START_RECORD "" []
        ((reverse row ++ String.append (String.rev field) f :: fs) :: rows)
        rest.
Proof.
  induction s as [|c s IH]; intros Hs field row rows.
  - exists "", []. split; [reflexivity|].
    rewrite append_empty_l. cbn [tokenize_bytes]. rewrite Ascii.eqb_refl.
    unfold end_line, end_field. now rewrite reverse_cons, append_empty_r.
  - destruct Hs as (Hq & Hn & Hs). apply eqb_neq in Hn.
    rewrite append_String. cbn [tokenize_bytes cut]. rewrite Hn.
    destruct (Ascii.eqb c sep).
    + rewrite tokenize_start_field by assumption.
      destruct (IH Hs "" (end_field field row) rows) as (f & fs & -> & ->).
      exists "", (f :: fs). split; [reflexivity|].
      unfold end_field. rewrite reverse_cons, append_empty_r, <- app_assoc.
      reflexivity.
    + destruct (IH Hs (String c field) row rows) as (f & fs & -> & ->).
      exists (String c f), fs. split; [reflexivity|].
      now rewrite rev_String, append_append.
Qed.

Lemma tokenize_line (l rest : string) rows :
  plain_line l ->
  tokenize_bytes START_RECORD "" [] rows
    (String.append l (String newline rest))
  = tokenize_bytes START_RECORD "" [] (cut_line l :: rows) rest.
Proof.
  destruct l as [|c l]; [reflexivity|]. intros (Hq & Hn & Hl).
  apply eqb_neq in Hq, Hn.
  rewrite append_String. cbn [tokenize_bytes cut_line cut]. rewrite Hq, Hn.
  destruct (Ascii.eqb c sep).
  - rewrite tokenize_start_field by assumption.
    destruct (tokenize_in_field l rest Hl "" (end_field "" []) rows)
      as (f & fs & -> & ->). reflexivity.
  - destruct (tokenize_in_field l rest Hl (String c "") [] rows)
      as (f & fs & -> & ->). reflexivity.
Qed.

Lemma unlines_cons l tls :
  unlines (l :: tls) = String.append l (String newline (unlines tls)).
Proof. reflexivity. Qed.

Lemma tokenize_lines (tls : list string) (rest : string) :
  Forall plain_line tls -> forall rows,
  tokenize_bytes START_RECORD "" [] rows (String.append (unlines tls) rest)
  = tokenize_bytes START_RECORD "" []
      (reverse (cut_line <$> tls) ++ rows) rest.
Proof.
  induction 1 as [|l tls Hl _ IH]; intros rows; [reflexivity|].
  rewrite unlines_cons, append_append, append_String.
  rewrite tokenize_line by assumption. rewrite IH.
  rewrite fmap_cons, reverse_cons, <- app_assoc. reflexivity.
Qed.

(** X16.  On a file whose lines hold no quotation mark (and that has no
    carriage return and no byte order mark) the tokenizer does what
    cutting every line at every space does: one row per line, in order,
    without any field for an empty line and, for any other line, with one
    field more than the line has spaces. *)
Theorem tokenize_plain_lines (tls : list string) :
  unsupported (unlines tls) = false ->
  Forall plain_line tls ->
  tokenize (unlines tls) = Ok (cut_line <$> tls).
Proof.
  intros _ Htls. unfold tokenize.
  rewrite <- (append_empty_r (unlines tls)).
  rewrite (tokenize_lines tls "" Htls []).
  cbn [tokenize_bytes]. now rewrite app_nil_r, reverse_involutive.
Qed.

Lemma tokenize_plain_lines_witness :
  tokenize sample_short_text
  = Ok [["China"; "NNP"; "I-NP"; "I-ORG"]; ["rejects"; "VBZ"; "I-VP"];
        ["German"; "JJ"; "I-NP"; "I-MISC"]].
Proof.
  apply (tokenize_plain_lines
           ["China NNP I-NP I-ORG"; "rejects VBZ I-VP";
            "German JJ I-NP I-MISC"]).
  - reflexivity.
  - repeat constructor; discriminate.
Defined.

(** ** Quoted fields *)

Lemma rev_append (s1 s2 : string) :
  String.rev (String.append s1 s2)
  = String.append (String.rev s2) (String.rev s1).
Proof.
  induction s1 as [|c s1 IH].
  - rewrite append_empty_l. symmetry. apply append_empty_r.
  - now rewrite append_String, !rev_String, IH, append_append.
Qed.

Lemma rev_involutive (s : string) : String.rev (String.rev s) = s.
Proof.
  induction s as [|c s IH]; [reflexivity|].
  now rewrite rev_String, rev_append, IH.
Qed.

(** Inside a quoted field every character but the quotation mark is
    kept. *)
Lemma tokenize_in_quoted (s rest : string) :
  quote_free s -> forall field row rows,
  tokenize_bytes IN_QUOTED_FIELD field row rows (String.append s rest)
  = tokenize_bytes IN_QUOTED_FIELD (String.rev_app s field) row rows rest.
Proof.
  induction s as [|c s IH]; intros Hs field row rows; [reflexivity|].
  destruct Hs as [Hq Hs]. apply eqb_neq in Hq.
  rewrite append_String. cbn [tokenize_bytes]. rewrite Hq.
  now rewrite IH.
Qed.

(** X17.  The quotation mark of [read_csv]'s default [quotechar].  The
    line the corpus has for a quotation mark is cut into three fields, the
    first of which is a space.  A field that starts with a quotation mark
    runs to the next one, spaces and line feeds included.  And a file that
    ends inside such a field is refused with [ParserError]. *)
Theorem quoted_fields :
  tokenize (unlines [quote_line]) = Ok [[" "; "O"; "O"]] /\
  (forall s, quote_free s ->
     tokenize (String quotechar
                 (String.append s (String quotechar (String newline ""))))
     = Ok [[s]]) /\
  (forall tls s, unsupported (unlines tls) = false ->
     Forall plain_line tls -> quote_free s ->
     tokenize (String.append (unlines tls) (String quotechar s))
     = Raise ParserError).
Proof.
  split; [reflexivity|]. split.
  - intros s Hs. unfold tokenize. cbn [tokenize_bytes].
    change (Ascii.eqb quotechar newline) with false.
    change (Ascii.eqb quotechar quotechar) with true. cbn iota.
    rewrite (tokenize_in_quoted s _ Hs). cbn [tokenize_bytes].
    change (Ascii.eqb quotechar quotechar) with true. cbn iota.
    change (Ascii.eqb newline quotechar) with false.
    change (Ascii.eqb newline sep) with false.
    change (Ascii.eqb newline newline) with true. cbn iota.
    unfold end_line, end_field.
    fold (String.rev s). now rewrite rev_involutive.
  - intros tls s _ Htls Hs. unfold tokenize.
    rewrite (tokenize_lines tls _ Htls). cbn [tokenize_bytes].
    change (Ascii.eqb quotechar newline) with false.
    change (Ascii.eqb quotechar quotechar) with true. cbn iota.
    rewrite <- (append_empty_r s).
    now rewrite (tokenize_in_quoted s "" Hs).
Qed.

(** ** The errors of the first cells *)

Lemma tags_column ls : raw_origin_entity <$> frame ls = column 3 <$> ls.
Proof.
  apply list_eq. intros i. unfold frame.
  rewrite !list_lookup_fmap, list_lookup_imap.
  now destruct (ls !! i).
Qed.

Lemma digit_number_character c :
  existsb (Ascii.eqb c) (list_ascii_of_string "0123456789") = true ->
  number_character c = true.
Proof.
  intros H. apply existsb_exists in H as (d & Hd & Hcd).
  apply Ascii.eqb_eq in Hcd. subst d. simpl in Hd.
  repeat (destruct Hd as [<-|Hd]; [reflexivity|]). contradiction.
Qed.

Lemma digits_not_text s :
  forallb (fun c => existsb (Ascii.eqb c) (list_ascii_of_string "0123456789"))
    (list_ascii_of_string s) = true ->
  plain_text s = false.
Proof.
  induction s as [|c s IH]; [reflexivity|].
  cbn [list_ascii_of_string forallb plain_text].
  intros [Hc Hs]%andb_true_iff.
  now rewrite (digit_number_character c Hc), (IH Hs).
Qed.

Lemma plain_number_not_text s : plain_number s = true -> plain_text s = false.
Proof.
  unfold plain_number. intros [_ Hs]%andb_true_iff. now apply digits_not_text.
Qed.

(** A column whose values are NaN or plainly numbers holds no string. *)
Lemma column_dtype_float64 (col : list cell) :
  Forall (fun c => from_option plain_number true c = true) col ->
  column_dtype col = Some float64.
Proof.
  intros H. unfold column_dtype.
  assert (existsb (fun c => from_option plain_text false c) col = false /\
          forallb (fun c => from_option plain_number true c) col = true)
    as [-> ->]; [|reflexivity].
  induction H as [|c col Hc _ [IH1 IH2]]; [split; reflexivity|].
  cbn [existsb forallb]. rewrite IH1, IH2, Hc. split; [|reflexivity].
  destruct c as [s|]; [|reflexivity]. simpl in *.
  now rewrite plain_number_not_text.
Qed.


